(** * ao_jack: the JACK audio output driver (audio/out/ao_jack.c)

    A shallow embedding of the driver's ring-buffer protocol: the producer
    side ([init], [play], [write_buffer], [reset], [audio_pause],
    [audio_resume], [get_space], [get_delay], [uninit]) and the real-time
    callback ([outputaudio], [read_buffer], [deinterleave], [silence]).

    Conventions.
    - C integers are values of [Z]; conversions between [int], [uint32_t]
      and [size_t] are written out with their wrap-around (LP64: 32-bit
      [int], 64-bit [size_t]).
    - The driver's file-scope variables are the fields of [jack_state];
      every function takes the state and returns the new one.
    - A sample is the four bytes of a C [float] as they lie in memory; the
      driver only copies samples and never computes with them.
    - The per-channel output planes ([float **bufs]) are a store indexed by
      plane and position; functions that write through [bufs] take the
      store and return the updated one.
    - The timing values ([float], [double]) are IEEE-754 binary32 and
      binary64 numbers ([spec_float]), each expression evaluated in its own
      type.
    - A function returns [None] where the C code dereferences a null
      pointer or divides by zero, or where a loop of the model runs out of
      fuel.
    - The callback runs on JACK's thread: where a function of the producer
      side sleeps, the callbacks that fire meanwhile are an argument of
      the function. *)

From Stdlib Require Import ZArith List Lia Bool.
From Stdlib Require Import Strings.Byte.
From Stdlib Require Import Floats.SpecFloat.
Import ListNotations.
Local Open Scope Z_scope.

(** ** C integer conversions *)

Module C.

(** value of [z] after conversion to [size_t] *)
Definition size_t (z : Z) : Z := z mod 2 ^ 64.

(** value of [z] after conversion to [uint32_t] ([jack_nframes_t]) *)
Definition uint32 (z : Z) : Z := z mod 2 ^ 32.

(** value of [z] after conversion to [int] *)
Definition int (z : Z) : Z := (z + 2 ^ 31) mod 2 ^ 32 - 2 ^ 31.

Definition INT_MAX : Z := 2 ^ 31 - 1.

(** [sizeof(float)] *)
Definition sizeof_float : Z := 4.

End C.

(** ** The option monad for fallible steps *)

Definition bind {A B : Type} (m : option A) (k : A -> option B) : option B :=
  match m with
  | Some a => k a
  | None => None
  end.

Notation "x <- m ;; k" := (bind m (fun x => k))
  (at level 61, m at next level, right associativity).
Notation "' p <- m ;; k" := (bind m (fun x => let p := x in k))
  (at level 61, p pattern, m at next level, right associativity).

(** [for (i = i0; i < i0 + n; i++) s = body i s] *)
Fixpoint for_loop {S : Type} (n : nat) (i : Z) (body : Z -> S -> S) (s : S) : S :=
  match n with
  | O => s
  | S n' => for_loop n' (i + 1) body (body i s)
  end.

(** ** Samples and planes *)

(** The object representation of one C [float]. *)
Record sample : Type := mkSample { s0 : byte; s1 : byte; s2 : byte; s3 : byte }.

(** What [memset(.., 0, ..)] leaves in a float: the value +0.0. *)
Definition sample_zero : sample := mkSample x00 x00 x00 x00.

Definition sample_bytes (x : sample) : list byte := [s0 x; s1 x; s2 x; s3 x].

Definition byte_at (src : list byte) (n : Z) : byte := nth (Z.to_nat n) src x00.

(** [((float * )src)[i]] *)
Definition sample_at (src : list byte) (i : Z) : sample :=
  mkSample (byte_at src (4 * i)) (byte_at src (4 * i + 1))
           (byte_at src (4 * i + 2)) (byte_at src (4 * i + 3)).

(** The memory behind [float **bufs]: [bufs i j] is [bufs[i][j]]. *)
Definition planes : Type := Z -> Z -> sample.

(** [bufs[i][j] = v] *)
Definition store (bufs : planes) (i j : Z) (v : sample) : planes :=
  fun i' j' => if (i' =? i) && (j' =? j) then v else bufs i' j'.

(** [memset(bufs[i], 0, n)]: the floats lying wholly in the first [n] bytes
    of plane [i] become zero. *)
Definition memset0 (bufs : planes) (i : Z) (n : Z) : planes :=
  fun i' j' =>
    if (i' =? i) && (0 <=? j') && (C.sizeof_float * j' + C.sizeof_float <=? n)
    then sample_zero else bufs i' j'.

(** The planes read back frame by frame: the interleaved byte stream that
    [frames] frames of [n] planes stand for. *)
Definition interleave (bufs : planes) (n frames : Z) : list byte :=
  flat_map (fun k => sample_bytes (bufs (Z.of_nat k mod n) (Z.of_nat k / n)))
           (seq 0 (Z.to_nat (frames * n))).

(** ** The byte FIFO (libavutil's AVFifoBuffer) *)

(** Modelled from the spec: the Ring Buffer of section 4.1 (push, pop,
    available_space, occupied, reset), which ao_jack.c uses through
    libavutil's [av_fifo_*] functions; their code is not in
    audio/out/ao_jack.c.  The buffer is a bounded byte queue.  [fifo_rpos]
    is the read cursor's offset in the storage ([rptr - buffer]): a read
    hands the bytes to its callback in runs that stop at the end of the
    storage, so a read that wraps around calls the callback twice. *)
Record AVFifoBuffer : Type := mkFifo {
  fifo_cap : Z;
  fifo_rpos : Z;
  fifo_data : list byte
}.

(** Modelled from the spec: creation with a fixed capacity, empty. *)
Definition av_fifo_alloc (size : Z) : AVFifoBuffer := mkFifo size 0 [].

(** Modelled from the spec: occupied(). *)
Definition av_fifo_size (f : AVFifoBuffer) : Z := Z.of_nat (length (fifo_data f)).

(** Modelled from the spec: available_space(). *)
Definition av_fifo_space (f : AVFifoBuffer) : Z := fifo_cap f - av_fifo_size f.

(** Modelled from the spec: reset() discards all buffered content (and
    rewinds the cursors to the start of the storage). *)
Definition av_fifo_reset (f : AVFifoBuffer) : AVFifoBuffer := mkFifo (fifo_cap f) 0 [].

(** Modelled from the spec: push without a callback; the caller has
    clamped [size] to the free space.  Returns the byte count written. *)
Definition av_fifo_generic_write (f : AVFifoBuffer) (src : list byte) (size : Z)
  : AVFifoBuffer * Z :=
  (mkFifo (fifo_cap f) (fifo_rpos f) (fifo_data f ++ firstn (Z.to_nat size) src), size).

(** Modelled from the spec: discard [size] bytes at the read cursor. *)
Definition av_fifo_drain (f : AVFifoBuffer) (size : Z) : AVFifoBuffer :=
  let r := fifo_rpos f + size in
  mkFifo (fifo_cap f)
         (if fifo_cap f <=? r then r - fifo_cap f else r)
         (skipn (Z.to_nat size) (fifo_data f)).

(** Modelled from the spec: pop through a callback.  libavutil's loop
    [do { len = min(end - rptr, buf_size); func(dest, rptr, len);
    drain(len); buf_size -= len; } while (buf_size > 0);] *)
Fixpoint generic_read_loop {D : Type} (fuel : nat) (f : AVFifoBuffer) (dest : D)
    (buf_size : Z) (func : D -> list byte -> Z -> D) : option (AVFifoBuffer * D) :=
  match fuel with
  | O => None
  | S fuel' =>
      let len := Z.min (fifo_cap f - fifo_rpos f) buf_size in
      let dest' := func dest (firstn (Z.to_nat len) (fifo_data f)) len in
      let f' := av_fifo_drain f len in
      let buf_size' := buf_size - len in
      if 0 <? buf_size'
      then generic_read_loop fuel' f' dest' buf_size' func
      else Some (f', dest')
  end.

Definition av_fifo_generic_read {D : Type} (f : AVFifoBuffer) (dest : D)
    (buf_size : Z) (func : D -> list byte -> Z -> D) : option (AVFifoBuffer * D) :=
  generic_read_loop (S (Z.to_nat buf_size)) f dest buf_size func.

(** What the callback of a read of [size] bytes has built when the read
    ends: one run up to the end of the storage and, when the read wraps
    around, a second run from its start. *)
Definition fifo_runs {D : Type} (f : AVFifoBuffer) (dest : D) (size : Z)
    (func : D -> list byte -> Z -> D) : D :=
  let l1 := Z.min (fifo_cap f - fifo_rpos f) size in
  let d1 := func dest (firstn (Z.to_nat l1) (fifo_data f)) l1 in
  if 0 <? size - l1
  then func d1 (firstn (Z.to_nat (size - l1)) (skipn (Z.to_nat l1) (fifo_data f)))
            (size - l1)
  else d1.

(** The storage invariant of a FIFO: the read cursor lies inside the
    storage and the content fits. *)
Definition fifo_wf (f : AVFifoBuffer) : Prop :=
  0 <= fifo_rpos f < fifo_cap f /\ av_fifo_size f <= fifo_cap f.

(** The read cursor and the end of the storage fall on float boundaries. *)
Definition fifo_aligned (f : AVFifoBuffer) : Prop :=
  fifo_cap f mod C.sizeof_float = 0 /\ fifo_rpos f mod C.sizeof_float = 0.

(** ** Ring buffer stuff (ao_jack.c lines 63-144) *)

(** [write_buffer]: insert [len] bytes of [data]; if there is not enough
    room the buffer is filled up.  Returns the number of bytes inserted. *)
Definition write_buffer (buffer : option AVFifoBuffer) (data : list byte) (len : Z)
  : option (AVFifoBuffer * Z) :=
  b <- buffer ;;
  let free := av_fifo_space b in
  let len := if free <? len then free else len in
  Some (av_fifo_generic_write b data len).

(** [struct deinterleave] without its [bufs] pointer: the planes it points
    to are the store passed along with it. *)
Record deinterleave_t : Type := mkDi {
  num_bufs : Z;
  cur_buf : Z;
  pos : Z
}.

(** One iteration of the loop of [deinterleave]. *)
Definition deinterleave_step (s : list byte) (i : Z) (st : deinterleave_t * planes)
  : deinterleave_t * planes :=
  let '(di, bufs) := st in
  let bufs' := store bufs (cur_buf di) (pos di) (sample_at s i) in
  let cur := cur_buf di + 1 in
  if num_bufs di <=? cur
  then (mkDi (num_bufs di) 0 (pos di + 1), bufs')
  else (mkDi (num_bufs di) cur (pos di), bufs').

(** [deinterleave(info, src, len)] *)
Definition deinterleave (st : deinterleave_t * planes) (src : list byte) (len : Z)
  : deinterleave_t * planes :=
  let len := C.int (C.size_t len / C.sizeof_float) in
  for_loop (Z.to_nat len) 0 (deinterleave_step src) st.

(** [silence(bufs, cnt, num_bufs)]: fill the buffers with silence. *)
Definition silence (bufs : planes) (cnt num_bufs : Z) : planes :=
  for_loop (Z.to_nat num_bufs) 0
           (fun i b => memset0 b i (C.size_t (C.size_t cnt * C.sizeof_float)))
           bufs.

(** [read_buffer(bufs, cnt, num_bufs)]: read data from the buffer and split
    it into channels.  Returns the buffer, the planes and the number of
    samples read per channel. *)
Definition read_buffer (buffer : option AVFifoBuffer) (bufs : planes) (cnt num_bufs : Z)
  : option (AVFifoBuffer * planes * Z) :=
  let di := mkDi num_bufs 0 0 in
  b <- buffer ;;
  let buffered := av_fifo_size b in
  let '(bufs, cnt) :=
    if C.size_t buffered
       <? C.size_t (C.size_t (C.size_t cnt * C.sizeof_float) * C.size_t num_bufs)
    then (silence bufs cnt num_bufs,
          C.int (C.size_t buffered / C.sizeof_float / C.size_t num_bufs))
    else (bufs, cnt) in
  '(b', (_, bufs')) <-
    av_fifo_generic_read b (di, bufs)
      (C.int (C.size_t (C.int (cnt * num_bufs)) * C.sizeof_float)) deinterleave ;;
  Some (b', bufs', cnt).

(** ** Floating-point arithmetic of the latency estimate *)

Module F.

(** C [float]: IEEE-754 binary32. *)
Definition float : Type := spec_float.
(** C [double]: IEEE-754 binary64. *)
Definition double : Type := spec_float.

Definition fadd : float -> float -> float := SFadd 24 128.
Definition fsub : float -> float -> float := SFsub 24 128.
Definition fdiv : float -> float -> float := SFdiv 24 128.
Definition flt : float -> float -> bool := SFltb.

Definition dsub : double -> double -> double := SFsub 53 1024.
Definition ddiv : double -> double -> double := SFdiv 53 1024.
Definition dlt : double -> double -> bool := SFltb.

(** [(float)z] and [(double)z] for an integer [z] *)
Definition float_of_Z (z : Z) : float := binary_normalize 24 128 z 0 false.
Definition double_of_Z (z : Z) : double := binary_normalize 53 1024 z 0 false.

(** conversion of a floating-point value to the format [prec], [emax] *)
Definition convert (prec emax : Z) (x : spec_float) : spec_float :=
  match x with
  | S754_finite s m e => binary_round prec emax s m e
  | _ => x
  end.

(** [(float)d] for a double [d] *)
Definition float_of_double : double -> float := convert 24 128.
(** the promotion of a float to double *)
Definition double_of_float : float -> double := convert 53 1024.

(** the constants [0] (as a float), [1000000.0] and [0.002] *)
Definition fzero : float := float_of_Z 0.
Definition d1000000 : double := double_of_Z 1000000.
Definition d0_002 : double := ddiv (double_of_Z 2) (double_of_Z 1000).

End F.

(** ** Driver state *)

(** The fields of [struct ao] that the driver reads. *)
Record ao : Type := mkAo {
  samplerate : Z;
  bps : Z;
  outburst : Z;
  buffersize : Z
}.

(** The file-scope variables of ao_jack.c.  The flags are C [int]s that
    only ever hold 0 or 1. *)
Record jack_state : Type := mkJack {
  num_ports : Z;
  jack_latency : F.float;
  estimate : bool;
  paused : bool;
  underrun : bool;
  callback_interval : F.float;
  callback_time : F.float;
  buffer : option AVFifoBuffer
}.

Definition set_paused (st : jack_state) (v : bool) : jack_state :=
  mkJack (num_ports st) (jack_latency st) (estimate st) v (underrun st)
         (callback_interval st) (callback_time st) (buffer st).

Definition set_underrun (st : jack_state) (v : bool) : jack_state :=
  mkJack (num_ports st) (jack_latency st) (estimate st) (paused st) v
         (callback_interval st) (callback_time st) (buffer st).

Definition set_buffer (st : jack_state) (b : option AVFifoBuffer) : jack_state :=
  mkJack (num_ports st) (jack_latency st) (estimate st) (paused st) (underrun st)
         (callback_interval st) (callback_time st) b.

Definition set_callback (st : jack_state) (time interval : F.float) : jack_state :=
  mkJack (num_ports st) (jack_latency st) (estimate st) (paused st) (underrun st)
         interval time (buffer st).

Definition CHUNK_SIZE : Z := 16 * 1024.
Definition NUM_CHUNKS : Z := 8.

(** [AOPLAY_FINAL_CHUNK] of ao.h. *)
Definition AOPLAY_FINAL_CHUNK : Z := 1.

(** The sizing at the end of [init] (lines 296-300) for [channels]
    channels at [rate] Hz; [None] where [CHUNK_SIZE / unitsize] divides by
    zero. *)
Definition init_ao (channels rate : Z) : option ao :=
  let unitsize := C.int (C.size_t channels * C.sizeof_float) in
  if unitsize =? 0 then None else
  let outburst := Z.quot CHUNK_SIZE unitsize * unitsize in
  Some (mkAo rate
             (C.int (C.size_t (C.int (channels * rate)) * C.sizeof_float))
             outburst
             (NUM_CHUNKS * outburst)).

(** The state [init] leaves on success: [estimate] as parsed, the flags at
    their initial 0, no callback seen yet, a fresh buffer. *)
Definition init_state (a : ao) (ports : Z) (latency : F.float) (est : bool) : jack_state :=
  mkJack ports latency est false false F.fzero F.fzero
         (Some (av_fifo_alloc (buffersize a))).

(** ** The JACK callback (lines 154-175) *)

(** [!buffer] *)
Definition is_null {A : Type} (p : option A) : bool :=
  match p with
  | Some _ => false
  | None => true
  end.

(** The test [(diff > -0.002) && (diff < 0.002)]. *)
Definition on_schedule (diff : F.float) : bool :=
  F.dlt (SFopp F.d0_002) (F.double_of_float diff)
  && F.dlt (F.double_of_float diff) F.d0_002.

(** [float now = mp_time_us() / 1000000.0;] *)
Definition now_float (now_us : Z) : F.float :=
  F.float_of_double (F.ddiv (F.double_of_Z now_us) F.d1000000).

(** The [if (estimate)] block of [outputaudio]. *)
Definition update_estimate (a : ao) (st : jack_state) (nframes now_us : Z) : jack_state :=
  if estimate st then
    let now := now_float now_us in
    let diff := F.fsub (F.fadd (callback_time st) (callback_interval st)) now in
    let time := if on_schedule diff
                then F.fadd (callback_time st) (callback_interval st)
                else now in
    set_callback st time (F.fdiv (F.float_of_Z nframes) (F.float_of_Z (samplerate a)))
  else st.

(** [outputaudio(nframes, arg)]: [bufs] is the memory of the port buffers
    that [jack_port_get_buffer] hands out, [now_us] what [mp_time_us()]
    returns.  The result is the new state, the port buffers and the return
    value. *)
Definition outputaudio (a : ao) (st : jack_state) (nframes : Z) (bufs : planes)
    (now_us : Z) : option (jack_state * planes * Z) :=
  '(st1, bufs1) <-
    (if paused st || underrun st || is_null (buffer st)
     then Some (st, silence bufs (C.int nframes) (num_ports st))
     else
       '(b', bufs', got) <- read_buffer (buffer st) bufs (C.int nframes) (num_ports st) ;;
       let st' := set_buffer st (Some b') in
       Some (if C.uint32 got <? nframes then set_underrun st' true else st', bufs')) ;;
  Some (update_estimate a st1 nframes now_us, bufs1, 0).

(** ** The producer side (lines 317-383) *)

(** [get_delay(ao)]; [now_us] is what [mp_time_us()] returns. *)
Definition get_delay (a : ao) (st : jack_state) (now_us : Z) : option F.float :=
  b <- buffer st ;;
  let buffered := av_fifo_size b in
  let in_jack := jack_latency st in
  let in_jack :=
    if estimate st && F.flt F.fzero (callback_interval st) then
      let elapsed :=
        F.float_of_double
          (F.dsub (F.ddiv (F.double_of_Z now_us) F.d1000000)
                  (F.double_of_float (callback_time st))) in
      let in_jack := F.fadd in_jack (F.fsub (callback_interval st) elapsed) in
      if F.flt in_jack F.fzero then F.fzero else in_jack
    else in_jack in
  Some (F.fadd (F.fdiv (F.float_of_Z buffered) (F.float_of_Z (bps a))) in_jack).

(** [reset(ao)]: stop playing and empty buffers. *)
Definition reset (st : jack_state) : option jack_state :=
  let st := set_paused st true in
  b <- buffer st ;;
  let st := set_buffer st (Some (av_fifo_reset b)) in
  Some (set_paused st false).

(** One invocation of the JACK callback: frame count, port buffers and
    clock. *)
Definition callback_args : Type := (Z * planes * Z)%type.

(** The callbacks that fire while a function of the producer side sleeps,
    in order; the port buffers they fill are not kept. *)
Fixpoint run_callbacks (a : ao) (st : jack_state) (cbs : list callback_args)
  : option jack_state :=
  match cbs with
  | [] => Some st
  | (nframes, bufs, now_us) :: cbs' =>
      '(st', _, _) <- outputaudio a st nframes bufs now_us ;;
      run_callbacks a st' cbs'
  end.

(** [uninit(ao, immed)].  The JACK client stays active until
    [jack_client_close], so callbacks fire during both sleeps: [draining]
    during [mp_sleep_us(get_delay(ao) * 1000 * 1000)] (skipped when
    [immed]), [flushing] during the 100 ms after [reset].  Then the client
    is closed and the buffer freed. *)
Definition uninit (a : ao) (st : jack_state) (immed : bool) (now_us : Z)
    (draining flushing : list callback_args) : option jack_state :=
  st <- (if immed then Some st
         else _ <- get_delay a st now_us ;; run_callbacks a st draining) ;;
  st <- reset st ;;
  st <- run_callbacks a st flushing ;;
  Some (set_buffer st None).

(** [audio_pause(ao)]: stop playing, keep buffers. *)
Definition audio_pause (st : jack_state) : jack_state := set_paused st true.

(** [audio_resume(ao)]: resume playing. *)
Definition audio_resume (st : jack_state) : jack_state := set_paused st false.

(** [get_space(ao)] *)
Definition get_space (st : jack_state) : option Z :=
  b <- buffer st ;;
  Some (av_fifo_space b).

(** [play(ao, data, len, flags)]: write data into the buffer and reset the
    underrun flag.  [None] where [len % ao->outburst] divides by zero,
    which happens before the flag is written. *)
Definition play (a : ao) (st : jack_state) (data : list byte) (len flags : Z)
  : option (jack_state * Z) :=
  len <-
    (if Z.land flags AOPLAY_FINAL_CHUNK =? 0
     then if outburst a =? 0 then None
          else Some (C.int (len - Z.rem len (outburst a)))
     else Some len) ;;
  let st := set_underrun st false in
  '(b, n) <- write_buffer (buffer st) data len ;;
  Some (set_buffer st (Some b), n).

(** ** The driver's entry points as calls on the state *)

(** The JACK process callback and the operations of [audio_out_jack]. *)
Inductive call : Type :=
| Call_outputaudio (nframes : Z) (bufs : planes) (now_us : Z)
| Call_play (data : list byte) (len flags : Z)
| Call_get_delay (now_us : Z)
| Call_get_space
| Call_pause
| Call_resume
| Call_reset
| Call_uninit (immed : bool) (now_us : Z) (draining flushing : list callback_args).

Definition is_play (c : call) : bool :=
  match c with
  | Call_play _ _ _ => true
  | _ => false
  end.

Definition is_uninit (c : call) : bool :=
  match c with
  | Call_uninit _ _ _ _ => true
  | _ => false
  end.

(** The state after one call (results other than the state are dropped). *)
Definition step (a : ao) (st : jack_state) (c : call) : option jack_state :=
  match c with
  | Call_outputaudio nframes bufs now_us =>
      '(st', _, _) <- outputaudio a st nframes bufs now_us ;; Some st'
  | Call_play data len flags =>
      '(st', _) <- play a st data len flags ;; Some st'
  | Call_get_delay now_us => _ <- get_delay a st now_us ;; Some st
  | Call_get_space => _ <- get_space st ;; Some st
  | Call_pause => Some (audio_pause st)
  | Call_resume => Some (audio_resume st)
  | Call_reset => reset st
  | Call_uninit immed now_us draining flushing =>
      uninit a st immed now_us draining flushing
  end.

Fixpoint run (a : ao) (st : jack_state) (cs : list call) : option jack_state :=
  match cs with
  | [] => Some st
  | c :: cs' => st' <- step a st c ;; run a st' cs'
  end.

(** ** Preconditions of the entry points *)

(** The buffer, when there is one, is a well-formed FIFO whose capacity is
    an [int] (as [av_fifo_alloc] takes it). *)
Definition buffer_ok (o : option AVFifoBuffer) : Prop :=
  match o with
  | Some b => fifo_wf b /\ fifo_cap b <= C.INT_MAX
  | None => True
  end.

(** What a callback invocation may assume: a frame count and a port count
    that are non-negative [int]s, and a well-formed buffer. *)
Definition callback_pre (st : jack_state) (nframes : Z) : Prop :=
  0 <= nframes <= C.INT_MAX /\ 0 <= num_ports st <= C.INT_MAX /\ buffer_ok (buffer st).

(** The invariant of the driver's buffer: well-formed, float-aligned, with
    an [int] capacity. *)
Definition buffer_inv (o : option AVFifoBuffer) : Prop :=
  match o with
  | Some b => fifo_wf b /\ fifo_aligned b /\ fifo_cap b <= C.INT_MAX
  | None => True
  end.

(** A callback that fires during a sleep asks for a frame count that is a
    non-negative [int]. *)
Definition callback_ok (cb : callback_args) : Prop :=
  let '(nframes, _, _) := cb in 0 <= nframes <= C.INT_MAX.

(** A callback asks for a frame count that is a non-negative [int], also
    when it fires during the sleeps of [uninit]. *)
Definition call_ok (c : call) : Prop :=
  match c with
  | Call_outputaudio nframes _ _ => 0 <= nframes <= C.INT_MAX
  | Call_uninit _ _ draining flushing =>
      Forall callback_ok draining /\ Forall callback_ok flushing
  | _ => True
  end.

(** The arguments of [play] for which C defines the call: [len] bytes that
    the data holds, and a non-zero divisor for the rounding of a chunk
    that is not the final one. *)
Definition play_ok (a : ao) (data : list byte) (len flags : Z) : Prop :=
  0 <= len <= C.INT_MAX /\ len <= Z.of_nat (length data) /\
  (Z.land flags AOPLAY_FINAL_CHUNK <> 0 \/ 0 < outburst a).

(** The occupancy of the state's buffer (0 without a buffer). *)
Definition occupancy (st : jack_state) : Z :=
  match buffer st with
  | Some b => av_fifo_size b
  | None => 0
  end.

(** ** The delay formula in the words of the specification *)

(** [max(0, x)] *)
Definition fmax0 (x : F.float) : F.float := if F.flt x F.fzero then F.fzero else x.

(** [now - last_predicted_fire_time], computed as [get_delay] does. *)
Definition elapsed_since (st : jack_state) (now_us : Z) : F.float :=
  F.float_of_double
    (F.dsub (F.ddiv (F.double_of_Z now_us) F.d1000000)
            (F.double_of_float (callback_time st))).

(** [occupied_bytes / bytes_per_second] *)
Definition queued_seconds (a : ao) (b : AVFifoBuffer) : F.float :=
  F.fdiv (F.float_of_Z (av_fifo_size b)) (F.float_of_Z (bps a)).

(** The specification's delay with estimation enabled:
    [occupied_bytes / bytes_per_second + hardware_base_latency
     + max(0, nominal_period - (now - last_predicted_fire_time))]. *)
Definition spec_delay_estimating (a : ao) (st : jack_state) (b : AVFifoBuffer)
    (now_us : Z) : F.float :=
  F.fadd (F.fadd (queued_seconds a b) (jack_latency st))
         (fmax0 (F.fsub (callback_interval st) (elapsed_since st now_us))).

(** ** Concrete scenarios *)

Definition byte_block (n : nat) (x : byte) : list byte := repeat x n.

(** Two channels at 48 kHz, sized as [init] sizes them. *)
Definition ao_stereo : ao := mkAo 48000 384000 16384 131072.

(** A state with a 16-byte buffer holding [data]. *)
Definition small_state (est is_paused is_underrun : bool) (data : list byte) : jack_state :=
  mkJack 1 (F.fdiv (F.float_of_Z 1) (F.float_of_Z 100)) est is_paused is_underrun
         (F.fdiv (F.float_of_Z 960) (F.float_of_Z 48000)) (F.float_of_Z 1)
         (Some (mkFifo 16 0 data)).

(** Planes holding a non-zero sample everywhere. *)
Definition dirty_planes : planes := fun _ _ => mkSample x01 x02 x03 x04.

(** The bytes [n], [n+1], ... as samples to push. *)
Definition ramp (n : nat) : list byte :=
  map (fun k => match Byte.of_nat (k mod 256) with Some x => x | None => x00 end) (seq 1 n).

(** A paused stream with one queued frame of two floats' worth of bytes. *)
Definition paused_state : jack_state := small_state false true false (byte_block 8 x01).

(** A playing stream holding [n] bytes. *)
Definition playing_state (n : nat) : jack_state := small_state true false false (ramp n).

(** The stream right after a successful [init] for two channels. *)
Definition fresh_state : jack_state := init_state ao_stereo 2 F.fzero true.

(** Calls of every kind but [play] and [uninit]. *)
Definition idle_calls : list call :=
  [Call_reset; Call_pause; Call_outputaudio 4 dirty_planes 5; Call_resume;
   Call_get_delay 7; Call_outputaudio 2 dirty_planes 9; Call_get_space].

(** An empty 16-byte buffer whose read cursor is in the middle of the
    storage, so that a read of 16 bytes wraps around. *)
Definition wrapped_empty : AVFifoBuffer := mkFifo 16 8 [].

(** ** [init] (lines 201-315) *)







(** ** Further scenarios *)

Definition is_callback (c : call) : bool :=
  match c with
  | Call_outputaudio _ _ _ => true
  | _ => false
  end.

(** The calls a user of an open stream may make: callbacks with an [int]
    frame count, plays of [len] bytes that the data holds (with a positive
    outburst to round to), and everything else but [uninit]. *)
Definition call_safe (a : ao) (c : call) : Prop :=
  match c with
  | Call_outputaudio nframes _ _ => 0 <= nframes <= C.INT_MAX
  | Call_play data len _ =>
      0 <= len <= C.INT_MAX /\ len <= Z.of_nat (length data) /\ 0 < outburst a
  | Call_uninit _ _ _ _ => False
  | _ => True
  end.

(** A stereo stream awaiting data: the 16-byte buffer is empty with its
    read cursor in the middle of the storage, and an underrun is flagged. *)
Definition starved_state : jack_state :=
  mkJack 2 F.fzero true false true F.fzero F.fzero (Some wrapped_empty).

(** A stereo stream holding the three frames [ramp 24] in a 32-byte buffer
    whose read cursor is 16 bytes from the end of the storage. *)
Definition stereo_state : jack_state :=
  mkJack 2 F.fzero true false false F.fzero F.fzero (Some (mkFifo 32 16 (ramp 24))).




(** * Properties *)

(** ** Integer conversions that do not wrap *)

Lemma size_t_small z : 0 <= z < 2 ^ 64 -> C.size_t z = z.
Proof. intros H. unfold C.size_t. apply Z.mod_small. exact H. Qed.

Lemma int_small z : - 2 ^ 31 <= z < 2 ^ 31 -> C.int z = z.
Proof. intros H. unfold C.int. rewrite Z.mod_small; lia. Qed.

Lemma uint32_small z : 0 <= z < 2 ^ 32 -> C.uint32 z = z.
Proof. intros H. unfold C.uint32. apply Z.mod_small. exact H. Qed.

Ltac zbool :=
  repeat match goal with
         | |- context [?a <=? ?b] => destruct (Z.leb_spec a b)
         | |- context [?a <? ?b] => destruct (Z.ltb_spec a b)
         | |- context [?a =? ?b] => destruct (Z.eqb_spec a b)
         end;
  cbn [andb]; try reflexivity; try lia; try (f_equal; lia).

(** ** [silence] *)

Lemma memset_loop_spec bytes n :
  forall i0 bufs i j,
    for_loop n i0 (fun k b => memset0 b k bytes) bufs i j =
    if (i0 <=? i) && (i <? i0 + Z.of_nat n) && (0 <=? j) && (4 * j + 4 <=? bytes)
    then sample_zero else bufs i j.
Proof.
  induction n as [|n IH]; intros i0 bufs i j.
  - simpl. zbool.
  - cbn [for_loop]. rewrite IH. unfold memset0, C.sizeof_float.
    rewrite Nat2Z.inj_succ. zbool.
Qed.

Lemma silence_spec bufs cnt num_bufs i j :
  0 <= cnt <= C.INT_MAX ->
  silence bufs cnt num_bufs i j =
  if (0 <=? i) && (i <? num_bufs) && (0 <=? j) && (j <? cnt)
  then sample_zero else bufs i j.
Proof.
  unfold C.INT_MAX. intros Hc. unfold silence, C.sizeof_float.
  rewrite memset_loop_spec.
  rewrite (size_t_small cnt) by lia.
  rewrite size_t_small by lia.
  assert (Hn : Z.of_nat (Z.to_nat num_bufs) = Z.max 0 num_bufs) by lia.
  rewrite Hn. zbool.
Qed.

(** ** [deinterleave] *)

Lemma frame_index_inj N i j cur pos :
  0 < N -> 0 <= i < N -> 0 <= cur < N ->
  j * N + i = pos * N + cur -> i = cur /\ j = pos.
Proof.
  intros HN Hi Hc H.
  assert (j = pos) by nia.
  subst j. lia.
Qed.

Lemma deinterleave_step_eq s i N c p bufs :
  deinterleave_step s i (mkDi N c p, bufs) =
  if N <=? c + 1
  then (mkDi N 0 (p + 1), store bufs c p (sample_at s i))
  else (mkDi N (c + 1) p, store bufs c p (sample_at s i)).
Proof. reflexivity. Qed.

(** The loop of [deinterleave], started at source index [i0] with the write
    cursor at plane [cur], position [pos]: the [n] samples go to the [n]
    slots that follow the cursor in frame order, and nothing else changes. *)
Lemma deinterleave_loop_spec s N n :
  0 < N ->
  forall i0 cur pos bufs,
    0 <= cur < N ->
    exists cur' pos' bufs',
      for_loop n i0 (deinterleave_step s) (mkDi N cur pos, bufs)
      = (mkDi N cur' pos', bufs') /\
      0 <= cur' < N /\
      pos' * N + cur' = pos * N + cur + Z.of_nat n /\
      forall i j,
        bufs' i j =
        if (0 <=? i) && (i <? N) && (pos * N + cur <=? j * N + i)
           && (j * N + i <? pos * N + cur + Z.of_nat n)
        then sample_at s (i0 + (j * N + i - (pos * N + cur)))
        else bufs i j.
Proof.
  intros HN. induction n as [|n IH]; intros i0 cur pos bufs Hcur.
  - exists cur, pos, bufs. simpl. repeat split; try lia.
    intros i j. zbool.
  - cbn [for_loop]. rewrite deinterleave_step_eq.
    set (v := sample_at s i0).
    assert (Hnext : exists cur1 pos1,
               (if N <=? cur + 1
                then (mkDi N 0 (pos + 1), store bufs cur pos v)
                else (mkDi N (cur + 1) pos, store bufs cur pos v))
               = (mkDi N cur1 pos1, store bufs cur pos v)
               /\ 0 <= cur1 < N /\ pos1 * N + cur1 = pos * N + cur + 1).
    { destruct (Z.leb_spec N (cur + 1)).
      - exists 0, (pos + 1). repeat split; lia.
      - exists (cur + 1), pos. repeat split; lia. }
    destruct Hnext as (cur1 & pos1 & -> & Hcur1 & Hlin1).
    destruct (IH (i0 + 1) cur1 pos1 (store bufs cur pos v) Hcur1)
      as (cur' & pos' & bufs' & Hrun & Hcur' & Hlin' & Hget).
    exists cur', pos', bufs'. rewrite Hrun. repeat split; try lia.
    intros i j. rewrite Hget. rewrite Hlin1. rewrite Nat2Z.inj_succ.
    unfold store.
    destruct (Z.leb_spec 0 i); [|simpl; zbool].
    destruct (Z.ltb_spec i N); [|simpl; zbool].
    cbn [andb].
    destruct (Z.leb_spec (pos * N + cur + 1) (j * N + i)).
    + destruct (Z.ltb_spec (j * N + i) (pos * N + cur + 1 + Z.of_nat n)).
      * cbn [andb].
        destruct (Z.leb_spec (pos * N + cur) (j * N + i)); [|lia].
        destruct (Z.ltb_spec (j * N + i) (pos * N + cur + Z.succ (Z.of_nat n))); [|lia].
        cbn [andb]. f_equal. lia.
      * cbn [andb].
        destruct (Z.ltb_spec (j * N + i) (pos * N + cur + Z.succ (Z.of_nat n))); [lia|].
        rewrite andb_false_r.
        destruct (Z.eqb_spec i cur); destruct (Z.eqb_spec j pos); cbn [andb]; try reflexivity.
        subst. lia.
    + cbn [andb].
      destruct (Z.eqb_spec i cur); destruct (Z.eqb_spec j pos); cbn [andb].
      * subst i j.
        destruct (Z.leb_spec (pos * N + cur) (pos * N + cur)); [|lia].
        destruct (Z.ltb_spec (pos * N + cur) (pos * N + cur + Z.succ (Z.of_nat n))); [|lia].
        cbn [andb]. unfold v. f_equal. lia.
      * destruct (Z.leb_spec (pos * N + cur) (j * N + i)); cbn [andb]; try reflexivity.
        assert (j * N + i = pos * N + cur) as Heq by lia.
        apply frame_index_inj in Heq; try lia.
      * destruct (Z.leb_spec (pos * N + cur) (j * N + i)); cbn [andb]; try reflexivity.
        assert (j * N + i = pos * N + cur) as Heq by lia.
        apply frame_index_inj in Heq; try lia.
      * destruct (Z.leb_spec (pos * N + cur) (j * N + i)); cbn [andb]; try reflexivity.
        assert (j * N + i = pos * N + cur) as Heq by lia.
        apply frame_index_inj in Heq; try lia.
Qed.

Lemma deinterleave_spec src len N cur pos bufs :
  0 < N -> 0 <= cur < N -> 0 <= len <= C.INT_MAX ->
  exists cur' pos' bufs',
    deinterleave (mkDi N cur pos, bufs) src len = (mkDi N cur' pos', bufs') /\
    0 <= cur' < N /\
    pos' * N + cur' = pos * N + cur + len / 4 /\
    forall i j,
      bufs' i j =
      if (0 <=? i) && (i <? N) && (pos * N + cur <=? j * N + i)
         && (j * N + i <? pos * N + cur + len / 4)
      then sample_at src (j * N + i - (pos * N + cur))
      else bufs i j.
Proof.
  unfold C.INT_MAX. intros HN Hcur Hlen. unfold deinterleave, C.sizeof_float.
  rewrite size_t_small by lia.
  assert (0 <= len / 4 <= len) by (split; [apply Z.div_pos | apply Z.div_le_upper_bound]; lia).
  rewrite int_small by lia.
  destruct (deinterleave_loop_spec src N (Z.to_nat (len / 4)) HN 0 cur pos bufs Hcur)
    as (cur' & pos' & bufs' & Hrun & Hcur' & Hlin & Hget).
  exists cur', pos', bufs'. rewrite Hrun.
  rewrite Z2Nat.id in Hlin, Hget by lia.
  repeat split; try lia. exact Hget.
Qed.

(** C7. A flat source of [L = len / sizeof(float)] interleaved samples,
    deinterleaved into [N] planes from the start of the planes: source
    sample [k] lands in plane [k mod N] at position [k / N], for every
    [0 <= k < L], and no other plane position is written. *)
Theorem deinterleave_round_robin (src : list byte) (len N : Z) (bufs : planes) :
  0 < N ->
  0 <= len <= C.INT_MAX ->
  let L := len / C.sizeof_float in
  let bufs' := snd (deinterleave (mkDi N 0 0, bufs) src len) in
  (forall k, 0 <= k < L -> bufs' (k mod N) (k / N) = sample_at src k) /\
  (forall i j, (forall k, 0 <= k < L -> ~ (i = k mod N /\ j = k / N)) ->
               bufs' i j = bufs i j).
Proof.
  intros HN Hlen L bufs'. subst L bufs'. unfold C.sizeof_float.
  destruct (deinterleave_spec src len N 0 0 bufs HN ltac:(lia) Hlen)
    as (cur' & pos' & bufs' & Hrun & _ & _ & Hget).
  rewrite Hrun. cbn [snd]. split.
  - intros k Hk. rewrite Hget.
    pose proof (Z.mod_pos_bound k N HN) as Hm.
    pose proof (Z.div_mod k N ltac:(lia)) as Hd.
    assert (Hlin : k / N * N + k mod N = k) by lia.
    rewrite Hlin.
    destruct (Z.leb_spec 0 (k mod N)); [|lia].
    destruct (Z.ltb_spec (k mod N) N); [|lia].
    destruct (Z.leb_spec (0 * N + 0) k); [|lia].
    destruct (Z.ltb_spec k (0 * N + 0 + len / 4)); [|lia].
    cbn [andb]. f_equal. lia.
  - intros i j Hother. rewrite Hget.
    destruct (Z.leb_spec 0 i); [|reflexivity].
    destruct (Z.ltb_spec i N); [|reflexivity].
    destruct (Z.leb_spec (0 * N + 0) (j * N + i)); [|reflexivity].
    destruct (Z.ltb_spec (j * N + i) (0 * N + 0 + len / 4)); [|reflexivity].
    exfalso. apply (Hother (j * N + i)); [lia|].
    split.
    + apply Z.mod_unique with j; lia.
    + apply Z.div_unique with i; lia.
Qed.

(** ** Reading from the FIFO *)

Lemma skipn_skipn_Z (A : Type) (l : list A) x y :
  0 <= x -> 0 <= y ->
  skipn (Z.to_nat y) (skipn (Z.to_nat x) l) = skipn (Z.to_nat (x + y)) l.
Proof.
  intros Hx Hy. rewrite skipn_skipn. f_equal. lia.
Qed.

(** A read of [size] bytes from a well-formed FIFO that holds them ends
    after one run, or after two when it wraps around; the callback sees the
    bytes in order and the FIFO loses exactly them. *)
Lemma generic_read_runs (D : Type) (f : AVFifoBuffer) (d : D) (size : Z)
      (func : D -> list byte -> Z -> D) :
  fifo_wf f ->
  0 <= size <= av_fifo_size f ->
  av_fifo_generic_read f d size func =
  Some (av_fifo_drain f size, fifo_runs f d size func).
Proof.
  intros [Hr Hs] Hsize. unfold fifo_runs.
  set (l1 := Z.min (fifo_cap f - fifo_rpos f) size).
  set (d1 := func d (firstn (Z.to_nat l1) (fifo_data f)) l1).
  unfold av_fifo_generic_read. cbn [generic_read_loop]. fold l1. fold d1.
  destruct (Z.ltb_spec 0 (size - l1)) as [Hmore|Hdone].
  - assert (Hl1 : l1 = fifo_cap f - fifo_rpos f) by (subst l1; lia).
    destruct (Z.to_nat size) as [|fuel] eqn:Hfuel; [lia|].
    cbn [generic_read_loop].
    assert (Hdrain : av_fifo_drain f l1 = mkFifo (fifo_cap f) 0 (skipn (Z.to_nat l1) (fifo_data f))).
    { unfold av_fifo_drain. rewrite Hl1.
      destruct (Z.leb_spec (fifo_cap f) (fifo_rpos f + (fifo_cap f - fifo_rpos f))); [|lia].
      f_equal. lia. }
    rewrite Hdrain. cbn [fifo_cap fifo_rpos fifo_data].
    assert (Hl2 : Z.min (fifo_cap f - 0) (size - l1) = size - l1) by lia.
    rewrite Hl2.
    destruct (Z.ltb_spec 0 (size - l1 - (size - l1))); [lia|].
    f_equal. f_equal.
    unfold av_fifo_drain. cbn [fifo_cap fifo_rpos fifo_data].
    rewrite skipn_skipn_Z by lia.
    destruct (Z.leb_spec (fifo_cap f) (0 + (size - l1))); [lia|].
    destruct (Z.leb_spec (fifo_cap f) (fifo_rpos f + size)); [|lia].
    f_equal; [lia|]. f_equal. f_equal. lia.
  - assert (Hl1 : l1 = size) by (subst l1; lia).
    rewrite Hl1. reflexivity.
Qed.

Lemma av_fifo_drain_size f size :
  0 <= size <= av_fifo_size f ->
  av_fifo_size (av_fifo_drain f size) = av_fifo_size f - size.
Proof.
  intros H. unfold av_fifo_drain, av_fifo_size in *. cbn [fifo_data].
  rewrite length_skipn. lia.
Qed.

(** ** [read_buffer] *)

(** What [read_buffer] does on a well-formed buffer: it decides between the
    full and the short read, pre-fills the planes with silence for the
    short one, and reads a whole number of frames. *)
Lemma read_buffer_spec b bufs cnt N :
  fifo_wf b -> fifo_cap b <= C.INT_MAX ->
  0 <= cnt <= C.INT_MAX -> 0 <= N <= C.INT_MAX ->
  let short := av_fifo_size b <? cnt * 4 * N in
  let ret := if short then av_fifo_size b / (N * 4) else cnt in
  let bufs0 := if short then silence bufs cnt N else bufs in
  0 <= ret <= cnt /\
  0 <= ret * N * 4 <= av_fifo_size b /\
  read_buffer (Some b) bufs cnt N =
  Some (av_fifo_drain b (ret * N * 4),
        snd (fifo_runs b (mkDi N 0 0, bufs0) (ret * N * 4) deinterleave),
        ret).
Proof.
  intros Hwf Hcap Hcnt HN short ret bufs0. unfold C.INT_MAX in *.
  pose proof Hwf as [Hr Hs].
  assert (Hsz : 0 <= av_fifo_size b) by (unfold av_fifo_size; lia).
  assert (Hret : 0 <= ret <= cnt /\ 0 <= ret * N * 4 <= av_fifo_size b).
  { subst ret short.
    destruct (Z.ltb_spec (av_fifo_size b) (cnt * 4 * N)) as [Hshort|Hfull].
    - assert (0 < N) by nia.
      pose proof (Z.mul_div_le (av_fifo_size b) (N * 4) ltac:(lia)).
      assert (0 <= av_fifo_size b / (N * 4)) by (apply Z.div_pos; lia).
      assert (av_fifo_size b / (N * 4) < cnt)
        by (apply Z.div_lt_upper_bound; lia).
      repeat split; try lia.
    - repeat split; try lia. }
  destruct Hret as [Hret Hbytes]. split; [exact Hret|]. split; [exact Hbytes|].
  unfold read_buffer. cbn [bind]. unfold C.sizeof_float.
  rewrite (size_t_small (av_fifo_size b)) by lia.
  rewrite (size_t_small cnt) by lia.
  rewrite (size_t_small (cnt * 4)) by lia.
  rewrite (size_t_small N) by lia.
  rewrite (size_t_small (cnt * 4 * N)) by nia.
  fold short.
  assert (Hcnt' : (if short
                   then (silence bufs cnt N, C.int (av_fifo_size b / 4 / N))
                   else (bufs, cnt)) = (bufs0, ret)).
  { subst bufs0 ret. destruct short eqn:Hshort.
    - f_equal. subst short. apply Z.ltb_lt in Hshort.
      assert (0 < N) by nia.
      rewrite Z.div_div by lia. rewrite (Z.mul_comm 4 N).
      apply int_small.
      assert (0 <= av_fifo_size b / (N * 4)) by (apply Z.div_pos; lia).
      assert (av_fifo_size b / (N * 4) <= av_fifo_size b)
        by (apply Z.div_le_upper_bound; nia).
      lia.
    - reflexivity. }
  rewrite Hcnt'.
  assert (Hrn : 0 <= ret * N <= av_fifo_size b) by nia.
  rewrite (int_small (ret * N)) by lia.
  rewrite (size_t_small (ret * N)) by lia.
  rewrite (int_small (ret * N * 4)) by lia.
  rewrite generic_read_runs by (assumption || lia).
  cbn [bind].
  destruct (fifo_runs b (mkDi N 0 0, bufs0) (ret * N * 4) deinterleave) as [di' bufs'].
  reflexivity.
Qed.

(** The planes after the runs of a read through [deinterleave]: the first
    run fills the slots [0 .. l1/4) in frame order, the second the
    [l2/4] slots after them; every other slot is as before. *)
Lemma fifo_runs_deinterleave b N bufs0 size :
  0 < N -> fifo_wf b -> fifo_cap b <= C.INT_MAX ->
  0 <= size <= av_fifo_size b ->
  let l1 := Z.min (fifo_cap b - fifo_rpos b) size in
  let l2 := size - l1 in
  let c1 := firstn (Z.to_nat l1) (fifo_data b) in
  let c2 := firstn (Z.to_nat l2) (skipn (Z.to_nat l1) (fifo_data b)) in
  forall i j,
    snd (fifo_runs b (mkDi N 0 0, bufs0) size deinterleave) i j =
    if (0 <=? i) && (i <? N) && (0 <=? j * N + i) && (j * N + i <? l1 / 4 + l2 / 4)
    then if j * N + i <? l1 / 4
         then sample_at c1 (j * N + i)
         else sample_at c2 (j * N + i - l1 / 4)
    else bufs0 i j.
Proof.
  intros HN [Hr Hs] Hcap Hsize l1 l2 c1 c2 i j.
  unfold C.INT_MAX in *.
  assert (Hl1 : 0 <= l1 <= size) by (subst l1; lia).
  unfold fifo_runs. fold l1. fold l2. fold c1. fold c2.
  destruct (deinterleave_spec c1 l1 N 0 0 bufs0 HN ltac:(lia) ltac:(unfold C.INT_MAX; lia))
    as (cur1 & pos1 & bufs1 & Hrun1 & Hcur1 & Hlin1 & Hget1).
  rewrite Hrun1.
  assert (H1 : 0 <= l1 / 4) by (apply Z.div_pos; lia).
  assert (H2 : 0 <= l2 / 4) by (apply Z.div_pos; lia).
  set (x := j * N + i) in *.
  destruct (Z.ltb_spec 0 l2) as [Hmore|Hdone].
  - destruct (deinterleave_spec c2 l2 N cur1 pos1 bufs1 HN Hcur1 ltac:(unfold C.INT_MAX; lia))
      as (cur2 & pos2 & bufs2 & Hrun2 & _ & _ & Hget2).
    rewrite Hrun2. cbn [snd]. rewrite Hget2, Hget1. rewrite Hlin1. fold x.
    replace (0 * N + 0) with 0 by lia.
    zbool.
  - cbn [snd]. rewrite Hget1. fold x.
    assert (Hz : l2 / 4 = 0) by (replace l2 with 0 by lia; reflexivity).
    rewrite Hz. replace (0 * N + 0) with 0 by lia.
    zbool.
Qed.

(** ** The callback *)

Lemma update_estimate_keeps a st nframes now_us :
  buffer (update_estimate a st nframes now_us) = buffer st /\
  paused (update_estimate a st nframes now_us) = paused st /\
  underrun (update_estimate a st nframes now_us) = underrun st /\
  num_ports (update_estimate a st nframes now_us) = num_ports st.
Proof.
  unfold update_estimate. destruct (estimate st); repeat split; reflexivity.
Qed.

(** The callback on its silence path. *)
Lemma outputaudio_gated a st nframes bufs now_us :
  paused st || underrun st || is_null (buffer st) = true ->
  outputaudio a st nframes bufs now_us =
  Some (update_estimate a st nframes now_us,
        silence bufs (C.int nframes) (num_ports st), 0).
Proof.
  intros H. unfold outputaudio. rewrite H. reflexivity.
Qed.

(** The callback on its read path. *)
Lemma outputaudio_reading a st b nframes bufs now_us :
  paused st = false -> underrun st = false -> buffer st = Some b ->
  callback_pre st nframes ->
  let N := num_ports st in
  let short := av_fifo_size b <? nframes * 4 * N in
  let got := if short then av_fifo_size b / (N * 4) else nframes in
  let bufs0 := if short then silence bufs nframes N else bufs in
  let st1 := set_buffer st (Some (av_fifo_drain b (got * N * 4))) in
  outputaudio a st nframes bufs now_us =
  Some (update_estimate a (if short then set_underrun st1 true else st1) nframes now_us,
        snd (fifo_runs b (mkDi N 0 0, bufs0) (got * N * 4) deinterleave), 0).
Proof.
  intros Hp Hu Hb (Hn & HN & Hok) N short got bufs0 st1.
  rewrite Hb in Hok. destruct Hok as [Hwf Hcap].
  unfold outputaudio. rewrite Hp, Hu, Hb. cbn [orb is_null].
  unfold C.INT_MAX in *.
  rewrite (int_small nframes) by lia.
  destruct (read_buffer_spec b bufs nframes N Hwf Hcap) as (Hgot & Hbytes & Hrb);
    try (unfold C.INT_MAX; subst N; lia).
  fold short in Hgot, Hbytes, Hrb. fold got in Hgot, Hbytes, Hrb. fold bufs0 in Hrb.
  fold N. rewrite Hrb. cbn [bind].
  rewrite (uint32_small got) by lia.
  fold st1.
  assert (Hlt : (got <? nframes) = short).
  { subst got. destruct short eqn:Hs.
    - apply Z.ltb_lt. subst short. apply Z.ltb_lt in Hs.
      apply Z.div_lt_upper_bound; nia.
    - apply Z.ltb_irrefl. }
  rewrite Hlt. reflexivity.
Qed.

(** C1. A callback invocation in which the Paused flag or the Underrun
    flag is set, or the stream has no buffer, fills all [num_ports] planes
    with zero samples at all [nframes] positions and leaves the ring
    buffer, occupancy and contents, as it was. *)
Theorem callback_silence_when_gated (a : ao) (st : jack_state) (nframes : Z)
    (bufs : planes) (now_us : Z) :
  0 <= nframes <= C.INT_MAX ->
  paused st = true \/ underrun st = true \/ buffer st = None ->
  exists st' bufs',
    outputaudio a st nframes bufs now_us = Some (st', bufs', 0) /\
    (forall i j, 0 <= i < num_ports st -> 0 <= j < nframes -> bufs' i j = sample_zero) /\
    buffer st' = buffer st /\
    occupancy st' = occupancy st.
Proof.
  intros Hn Hgate.
  assert (Hg : paused st || underrun st || is_null (buffer st) = true).
  { destruct Hgate as [H|[H|H]]; rewrite H; cbn [is_null orb];
      rewrite ?orb_true_r; reflexivity. }
  eexists _, _. split; [apply outputaudio_gated; exact Hg|]. split.
  - intros i j Hi Hj. unfold C.INT_MAX in *.
    rewrite int_small by lia.
    rewrite silence_spec by (unfold C.INT_MAX; lia).
    zbool.
  - destruct (update_estimate_keeps a st nframes now_us) as (Hb & _).
    unfold occupancy. rewrite Hb. split; reflexivity.
Qed.

(** C2. A callback-side pop of [cnt] frames over [num_bufs] planes from a
    buffer that holds fewer than [cnt * num_bufs * sizeof(float)] bytes
    returns the whole frames available, [occupied / (num_bufs *
    sizeof(float))]; every plane position from that count up to [cnt - 1]
    holds the zero sample; and the enclosing callback sets the Underrun
    flag. *)
Theorem short_read_underrun (b : AVFifoBuffer) (bufs : planes) (cnt num_bufs : Z) :
  fifo_wf b -> fifo_cap b <= C.INT_MAX ->
  0 <= cnt <= C.INT_MAX -> 0 <= num_bufs <= C.INT_MAX ->
  av_fifo_size b < cnt * num_bufs * C.sizeof_float ->
  let got := av_fifo_size b / (num_bufs * C.sizeof_float) in
  exists b' bufs',
    read_buffer (Some b) bufs cnt num_bufs = Some (b', bufs', got) /\
    (forall i j, 0 <= i < num_bufs -> got <= j < cnt -> bufs' i j = sample_zero) /\
    (forall a st now_us,
        buffer st = Some b -> num_ports st = num_bufs ->
        paused st = false -> underrun st = false ->
        exists st', outputaudio a st cnt bufs now_us = Some (st', bufs', 0) /\
                    underrun st' = true).
Proof.
  intros Hwf Hcap Hcnt HN Hshort got. unfold C.sizeof_float in *.
  destruct (read_buffer_spec b bufs cnt num_bufs Hwf Hcap Hcnt HN) as (Hgot & Hbytes & Hrb).
  assert (Hs : (av_fifo_size b <? cnt * 4 * num_bufs) = true) by (apply Z.ltb_lt; lia).
  rewrite Hs in Hgot, Hbytes, Hrb. fold got in Hgot, Hbytes, Hrb.
  assert (HNpos : 0 < num_bufs) by nia.
  eexists _, _. split; [exact Hrb|]. split.
  - intros i j Hi Hj.
    rewrite fifo_runs_deinterleave by (assumption || lia).
    set (l1 := Z.min (fifo_cap b - fifo_rpos b) (got * num_bufs * 4)).
    destruct Hwf as [Hr Hsz].
    assert (Hl1 : 0 <= l1 <= got * num_bufs * 4) by (subst l1; lia).
    assert (Hruns : l1 / 4 + (got * num_bufs * 4 - l1) / 4 <= got * num_bufs).
    { set (m := got * num_bufs) in *. Z.to_euclidean_division_equations. lia. }
    assert (Hx : got * num_bufs <= j * num_bufs + i) by nia.
    destruct (Z.ltb_spec (j * num_bufs + i)
                         (l1 / 4 + (got * num_bufs * 4 - l1) / 4)); [lia|].
    rewrite andb_false_r.
    rewrite silence_spec by exact Hcnt.
    zbool.
  - intros a st now_us Hb Hports Hp Hu.
    pose proof (outputaudio_reading a st b cnt bufs now_us Hp Hu Hb) as Hout.
    cbv zeta in Hout. rewrite Hports in Hout. rewrite Hs in Hout. fold got in Hout.
    rewrite Hout.
    + eexists. split; [reflexivity|].
      destruct (update_estimate_keeps a
                  (set_underrun (set_buffer st (Some (av_fifo_drain b (got * num_bufs * 4)))) true)
                  cnt now_us) as (_ & _ & Hu' & _).
      rewrite Hu'. reflexivity.
    + unfold callback_pre. rewrite Hb, Hports. cbn [buffer_ok]. auto.
Qed.

(** ** [write_buffer] and [play] *)

Lemma write_buffer_spec b data len :
  av_fifo_size b <= fifo_cap b ->
  0 <= len <= Z.of_nat (length data) ->
  let n := Z.min len (av_fifo_space b) in
  write_buffer (Some b) data len =
  Some (mkFifo (fifo_cap b) (fifo_rpos b) (fifo_data b ++ firstn (Z.to_nat n) data), n) /\
  av_fifo_size (mkFifo (fifo_cap b) (fifo_rpos b) (fifo_data b ++ firstn (Z.to_nat n) data))
  = av_fifo_size b + n.
Proof.
  intros Hs Hlen n. unfold write_buffer, av_fifo_generic_write. cbn [bind].
  assert (Hn : (if av_fifo_space b <? len then av_fifo_space b else len) = n).
  { subst n. destruct (Z.ltb_spec (av_fifo_space b) len); lia. }
  rewrite Hn. split; [reflexivity|].
  unfold av_fifo_size, av_fifo_space in *. cbn [fifo_data].
  rewrite length_app, length_firstn. unfold av_fifo_size in *. lia.
Qed.

(** C4. A push of [len] bytes appends exactly [min(len, available_space())]
    bytes, the first ones of the data, and returns that count; the function
    is total (nothing to wait for) and the occupancy stays within the
    capacity.  In the scenario of an 8192-byte buffer with 8192 bytes free,
    pushing 10000 bytes returns 8192 and leaves 8192 bytes occupied. *)
Theorem write_buffer_truncates (b : AVFifoBuffer) (data : list byte) (len : Z) :
  av_fifo_size b <= fifo_cap b ->
  0 <= len <= Z.of_nat (length data) ->
  exists b',
    write_buffer (Some b) data len = Some (b', Z.min len (av_fifo_space b)) /\
    fifo_data b' = fifo_data b ++ firstn (Z.to_nat (Z.min len (av_fifo_space b))) data /\
    av_fifo_size b' = av_fifo_size b + Z.min len (av_fifo_space b) /\
    av_fifo_size b' <= fifo_cap b' /\
    fifo_cap b' = fifo_cap b /\
    (fifo_cap b = 8192 -> av_fifo_space b = 8192 -> len = 10000 ->
     write_buffer (Some b) data len = Some (b', 8192) /\ av_fifo_size b' = 8192).
Proof.
  intros Hs Hlen.
  destruct (write_buffer_spec b data len Hs Hlen) as [Hw Hsize].
  eexists. split; [exact Hw|]. split; [reflexivity|]. split; [exact Hsize|].
  split; [|split; [reflexivity|]].
  - rewrite Hsize. cbn [fifo_cap]. unfold av_fifo_space. lia.
  - intros Hcap Hfree Hlen'. rewrite Hw, Hsize.
    replace (Z.min len (av_fifo_space b)) with 8192 by lia.
    split; [reflexivity|]. unfold av_fifo_space in Hfree. lia.
Qed.

Lemma play_final_chunk a st b data len flags :
  buffer st = Some b ->
  av_fifo_size b <= fifo_cap b ->
  Z.land flags AOPLAY_FINAL_CHUNK <> 0 ->
  0 <= len <= av_fifo_space b ->
  len <= Z.of_nat (length data) ->
  exists st',
    play a st data len flags = Some (st', len) /\
    occupancy st' = av_fifo_size b + len /\
    underrun st' = false.
Proof.
  intros Hb Hs Hflag Hlen Hdata. unfold play.
  destruct (Z.eqb_spec (Z.land flags AOPLAY_FINAL_CHUNK) 0) as [E|_]; [contradiction|].
  cbn [bind set_underrun buffer]. rewrite Hb.
  destruct (write_buffer_spec b data len Hs ltac:(lia)) as [Hw Hsize].
  rewrite Hw. cbn [bind].
  replace (Z.min len (av_fifo_space b)) with len in * by lia.
  eexists. split; [reflexivity|]. split; [|reflexivity].
  unfold occupancy. cbn [set_buffer buffer]. exact Hsize.
Qed.

(** C10. Every pop by [read_buffer] removes a whole number of frames, that
    is [got * num_bufs * sizeof(float)] bytes for the returned count [got],
    from the front of the buffer.  The bytes of an incomplete frame stay in
    the buffer: at least [occupied mod frame size] bytes are left, and a
    short read leaves exactly those.  An occupancy that is not a whole
    number of frames can arise from a final-chunk [play], which writes its
    length unrounded. *)
Theorem read_buffer_pops_whole_frames (b : AVFifoBuffer) (bufs : planes)
    (cnt num_bufs : Z) :
  fifo_wf b -> fifo_cap b <= C.INT_MAX ->
  0 <= cnt <= C.INT_MAX -> 0 <= num_bufs <= C.INT_MAX ->
  let frame := num_bufs * C.sizeof_float in
  exists b' bufs' got,
    read_buffer (Some b) bufs cnt num_bufs = Some (b', bufs', got) /\
    av_fifo_size b - av_fifo_size b' = got * frame /\
    fifo_data b' = skipn (Z.to_nat (got * frame)) (fifo_data b) /\
    (0 < num_bufs -> av_fifo_size b mod frame <= av_fifo_size b') /\
    (av_fifo_size b < cnt * frame ->
     av_fifo_size b' = av_fifo_size b mod frame) /\
    (forall a st data len flags,
        buffer st = Some b ->
        Z.land flags AOPLAY_FINAL_CHUNK <> 0 ->
        0 <= len <= av_fifo_space b -> len <= Z.of_nat (length data) ->
        exists st', play a st data len flags = Some (st', len) /\
                    occupancy st' = av_fifo_size b + len).
Proof.
  intros Hwf Hcap Hcnt HN frame. subst frame. unfold C.sizeof_float.
  destruct (read_buffer_spec b bufs cnt num_bufs Hwf Hcap Hcnt HN) as (Hgot & Hbytes & Hrb).
  set (got := if av_fifo_size b <? cnt * 4 * num_bufs
              then av_fifo_size b / (num_bufs * 4) else cnt) in *.
  eexists _, _, got. split; [exact Hrb|].
  replace (got * (num_bufs * 4)) with (got * num_bufs * 4) by lia.
  rewrite av_fifo_drain_size by exact Hbytes.
  split; [lia|]. split; [reflexivity|]. split; [|split].
  - intros HNpos.
    assert (Hrem : av_fifo_size b mod (num_bufs * 4) <= av_fifo_size b - got * num_bufs * 4);
      [|lia].
    rewrite (Z.mod_eq (av_fifo_size b) (num_bufs * 4)) by lia.
    assert (got <= av_fifo_size b / (num_bufs * 4)); [|nia].
    apply Z.div_le_lower_bound; lia.
  - intros Hshort. subst got.
    destruct (Z.ltb_spec (av_fifo_size b) (cnt * 4 * num_bufs)); [|lia].
    assert (0 < num_bufs) by nia.
    rewrite (Z.mod_eq (av_fifo_size b) (num_bufs * 4)) by lia. lia.
  - intros a st data len flags Hb Hflag Hlen Hdata.
    destruct (play_final_chunk a st b data len flags Hb) as (st' & Hplay & Hocc & _);
      try assumption.
    + apply Hwf.
    + exists st'. split; assumption.
Qed.

(** ** [reset] and the flags *)

Lemma reset_open st b :
  buffer st = Some b ->
  reset st = Some (audio_resume (set_buffer (audio_pause st) (Some (av_fifo_reset b)))).
Proof.
  intros Hb. unfold reset. cbn [set_paused buffer]. rewrite Hb. reflexivity.
Qed.

(** C5, as the code has it.  In every state with occupancy > 0, [reset]
    returns with occupancy 0 and with the Paused flag clear, whatever the
    flag was before the call; the flag therefore equals its value from
    before the call exactly when that value was clear.  The reset
    proceeds as: set Paused, clear the ring buffer, clear Paused. *)
Theorem reset_empties_and_clears_paused (st : jack_state) :
  0 < occupancy st ->
  exists b st',
    buffer st = Some b /\
    reset st = Some st' /\
    st' = audio_resume (set_buffer (audio_pause st) (Some (av_fifo_reset b))) /\
    occupancy st' = 0 /\
    paused st' = false /\
    (paused st' = paused st <-> paused st = false).
Proof.
  intros Hocc. unfold occupancy in Hocc.
  destruct (buffer st) as [b|] eqn:Hb; [|lia].
  exists b. eexists. split; [reflexivity|]. split; [apply reset_open; exact Hb|].
  split; [reflexivity|]. split; [reflexivity|]. split; [reflexivity|].
  cbn [audio_resume set_paused paused]. split; intros H; congruence.
Qed.

(** C5 as stated fails: a reset of a paused stream leaves it unpaused. *)
Lemma reset_paused_counterexample :
  let st := small_state false true false (byte_block 8 x01) in
  0 < occupancy st /\
  exists st', reset st = Some st' /\ paused st' <> paused st.
Proof.
  cbv zeta. split; [reflexivity|].
  eexists. split; [reflexivity|]. cbn. discriminate.
Qed.

Lemma step_keeps_underrun a st b c :
  underrun st = true -> buffer st = Some b ->
  is_play c || is_uninit c = false ->
  exists st' b',
    step a st c = Some st' /\ underrun st' = true /\ buffer st' = Some b'.
Proof.
  intros Hu Hb Hc. destruct c; cbn in Hc; try discriminate; cbn [step].
  - rewrite outputaudio_gated by (rewrite Hu; rewrite orb_true_r; reflexivity).
    cbn [bind].
    destruct (update_estimate_keeps a st nframes now_us) as (Hb' & _ & Hu' & _).
    eexists _, b. split; [reflexivity|]. rewrite Hb', Hu'. auto.
  - unfold get_delay. rewrite Hb. cbn [bind]. eauto.
  - unfold get_space. rewrite Hb. cbn [bind]. eauto.
  - unfold audio_pause. eexists _, b. split; [reflexivity|]. cbn. auto.
  - unfold audio_resume. eexists _, b. split; [reflexivity|]. cbn. auto.
  - rewrite (reset_open st b Hb). eexists _, _. split; [reflexivity|]. cbn. auto.
Qed.

Lemma run_keeps_underrun a cs :
  forall st b,
    underrun st = true -> buffer st = Some b ->
    forallb (fun c => negb (is_play c || is_uninit c)) cs = true ->
    exists st' b',
      run a st cs = Some st' /\ underrun st' = true /\ buffer st' = Some b'.
Proof.
  induction cs as [|c cs IH]; intros st b Hu Hb Hcs.
  - exists st, b. cbn. auto.
  - cbn [forallb] in Hcs. apply andb_true_iff in Hcs. destruct Hcs as [Hc Hcs].
    apply negb_true_iff in Hc.
    destruct (step_keeps_underrun a st b c Hu Hb Hc) as (st1 & b1 & Hstep & Hu1 & Hb1).
    destruct (IH st1 b1 Hu1 Hb1 Hcs) as (st' & b' & Hrun & Hu' & Hb').
    exists st', b'. cbn [run]. rewrite Hstep. cbn [bind]. auto.
Qed.

Lemma play_clears_underrun a st b data len flags :
  buffer st = Some b ->
  Z.land flags AOPLAY_FINAL_CHUNK <> 0 \/ 0 < outburst a ->
  exists st' n, play a st data len flags = Some (st', n) /\ underrun st' = false.
Proof.
  intros Hb Hdiv. unfold play, write_buffer.
  destruct (Z.eqb_spec (Z.land flags AOPLAY_FINAL_CHUNK) 0) as [E|E].
  - destruct Hdiv as [Hf|Ho]; [contradiction|].
    destruct (Z.eqb_spec (outburst a) 0); [lia|].
    cbn [bind set_underrun buffer]. rewrite Hb. cbn [bind].
    unfold av_fifo_generic_write. eexists _, _. split; reflexivity.
  - cbn [bind set_underrun buffer]. rewrite Hb. cbn [bind].
    unfold av_fifo_generic_write. eexists _, _. split; reflexivity.
Qed.

(** Callbacks on a stream with the Underrun flag set take the silence
    path: they keep the flag, the buffer, the Paused flag and the ports. *)
Lemma callbacks_keep_underrun a cbs :
  forall st,
    underrun st = true ->
    exists st',
      run_callbacks a st cbs = Some st' /\ underrun st' = true /\
      buffer st' = buffer st /\ paused st' = paused st /\
      num_ports st' = num_ports st.
Proof.
  induction cbs as [|[[nframes bufs] now_us] cbs IH]; intros st Hu.
  - exists st. cbn. auto.
  - cbn [run_callbacks].
    rewrite outputaudio_gated by (rewrite Hu; rewrite orb_true_r; reflexivity).
    cbn [bind].
    destruct (update_estimate_keeps a st nframes now_us) as (Hb1 & Hp1 & Hu1 & HN1).
    destruct (IH (update_estimate a st nframes now_us)) as (st' & Hrun & Hu' & Hb' & Hp' & HN');
      [rewrite Hu1; exact Hu|].
    exists st'. split; [exact Hrun|]. split; [exact Hu'|].
    rewrite Hb', Hp', HN', Hb1, Hp1, HN1. auto.
Qed.

Lemma uninit_keeps_underrun a st b immed now_us draining flushing :
  underrun st = true -> buffer st = Some b ->
  exists st', uninit a st immed now_us draining flushing = Some st' /\
              underrun st' = true.
Proof.
  intros Hu Hb. unfold uninit.
  assert (Hdrain : exists st1,
             (if immed then Some st
              else _ <- get_delay a st now_us ;; run_callbacks a st draining) = Some st1
             /\ underrun st1 = true /\ buffer st1 = Some b).
  { destruct immed.
    - exists st. auto.
    - unfold get_delay. rewrite Hb. cbn [bind].
      destruct (callbacks_keep_underrun a draining st Hu) as (st1 & Hrun & Hu1 & Hb1 & _).
      exists st1. rewrite Hrun, Hb1. auto. }
  destruct Hdrain as (st1 & -> & Hu1 & Hb1). cbn [bind].
  rewrite (reset_open st1 b Hb1). cbn [bind].
  set (st2 := audio_resume _).
  destruct (callbacks_keep_underrun a flushing st2) as (st3 & Hrun & Hu3 & _);
    [subst st2; cbn; exact Hu1|].
  rewrite Hrun. cbn [bind]. eexists. split; [reflexivity|]. cbn. exact Hu3.
Qed.

(** C3, as the code has it.  A callback invocation that obtains fewer
    frames than it requested sets the Underrun flag; the flag then stays
    set across every sequence of further callback invocations and of
    reset, pause, resume, get_delay and get_space calls, and across
    uninit with the callbacks that fire during its sleeps; a write
    ([play]) clears it unconditionally, whatever it accepts.  Reset does
    not clear it.  The calls are those C defines: callbacks with [int]
    frame counts, and a [play] of bytes the data holds, with a positive
    outburst when the chunk is not the final one. *)
Theorem underrun_persists_until_play (a : ao) (st : jack_state) (b : AVFifoBuffer)
    (nframes : Z) (bufs : planes) (now_us : Z) (cs : list call)
    (data : list byte) (len flags : Z) :
  paused st = false -> underrun st = false -> buffer st = Some b ->
  callback_pre st nframes ->
  av_fifo_size b < nframes * num_ports st * C.sizeof_float ->
  forallb (fun c => negb (is_play c || is_uninit c)) cs = true ->
  Forall call_ok cs ->
  play_ok a data len flags ->
  exists st1 bufs1 st2 st3 n,
    outputaudio a st nframes bufs now_us = Some (st1, bufs1, 0) /\
    underrun st1 = true /\
    run a st1 cs = Some st2 /\
    underrun st2 = true /\
    (exists st4, reset st2 = Some st4 /\ underrun st4 = true) /\
    (forall immed t draining flushing,
        Forall callback_ok draining -> Forall callback_ok flushing ->
        exists st5, uninit a st2 immed t draining flushing = Some st5 /\
                    underrun st5 = true) /\
    play a st2 data len flags = Some (st3, n) /\
    underrun st3 = false.
Proof.
  intros Hp Hu Hb Hpre Hshort Hcs Hok (_ & _ & Hdiv). unfold C.sizeof_float in Hshort.
  pose proof (outputaudio_reading a st b nframes bufs now_us Hp Hu Hb Hpre) as Hout.
  cbv zeta in Hout.
  assert (Hs : (av_fifo_size b <? nframes * 4 * num_ports st) = true)
    by (apply Z.ltb_lt; lia).
  rewrite Hs in Hout.
  set (st0 := set_underrun _ true) in Hout.
  destruct (update_estimate_keeps a st0 nframes now_us) as (Hb1 & _ & Hu1 & _).
  set (st1 := update_estimate a st0 nframes now_us) in *.
  assert (Hb1' : exists b1, buffer st1 = Some b1) by (rewrite Hb1; cbn; eauto).
  destruct Hb1' as [b1 Hb1'].
  assert (Hu1' : underrun st1 = true) by (rewrite Hu1; reflexivity).
  destruct (run_keeps_underrun a cs st1 b1 Hu1' Hb1' Hcs) as (st2 & b2 & Hrun & Hu2 & Hb2).
  destruct (play_clears_underrun a st2 b2 data len flags Hb2 Hdiv) as (st3 & n & Hplay & Hu3).
  eexists st1, _, st2, st3, n.
  split; [exact Hout|]. split; [exact Hu1'|]. split; [exact Hrun|]. split; [exact Hu2|].
  split; [|split; [|split; assumption]].
  - eexists. split; [apply (reset_open st2 b2 Hb2)|]. cbn. exact Hu2.
  - intros immed t draining flushing _ _.
    exact (uninit_keeps_underrun a st2 b2 immed t draining flushing Hu2 Hb2).
Qed.

(** C3 as stated fails: after an underrun, a reset leaves the flag set. *)
Lemma reset_keeps_underrun_counterexample :
  exists st1 st2,
    run ao_stereo (init_state ao_stereo 2 F.fzero true)
        [Call_outputaudio 4 dirty_planes 0] = Some st1 /\
    underrun st1 = true /\
    reset st1 = Some st2 /\
    underrun st2 <> false.
Proof.
  eexists _, _. split; [vm_compute; reflexivity|].
  split; [reflexivity|]. split; [reflexivity|]. cbn. discriminate.
Qed.

(** ** The latency estimate *)

(** C6, as the code has it.  With a buffer present, [get_delay] returns
    [occupied_bytes / bytes_per_second + in_jack], where [in_jack] is
    [max(0, hardware_base_latency + nominal_period - (now -
    last_predicted_fire_time))] when estimation is enabled and a positive
    callback period has been recorded, and the hardware base latency
    alone otherwise; with estimation disabled the result is exactly
    [occupied_bytes / bytes_per_second + hardware_base_latency].  The
    clamped term is never below zero. *)
Theorem get_delay_formula (a : ao) (st : jack_state) (b : AVFifoBuffer) (now_us : Z) :
  buffer st = Some b ->
  get_delay a st now_us =
  Some (F.fadd (queued_seconds a b)
               (if estimate st && F.flt F.fzero (callback_interval st)
                then fmax0 (F.fadd (jack_latency st)
                                   (F.fsub (callback_interval st) (elapsed_since st now_us)))
                else jack_latency st)) /\
  (estimate st = false ->
   get_delay a st now_us = Some (F.fadd (queued_seconds a b) (jack_latency st))) /\
  (forall x, F.flt (fmax0 x) F.fzero = false).
Proof.
  intros Hb. unfold get_delay. rewrite Hb. cbn [bind].
  split; [|split].
  - reflexivity.
  - intros He. rewrite He. reflexivity.
  - intros x. unfold fmax0. destruct (F.flt x F.fzero) eqn:Hx; [reflexivity|exact Hx].
Qed.

(** C6 as stated fails: with a base latency of 10 ms, a period of 20 ms and
    25 ms elapsed since the last callback, the code returns about 5 ms
    where the formula of the specification gives 10 ms. *)
Lemma get_delay_clamp_counterexample :
  let st := small_state true false false [] in
  estimate st = true /\
  get_delay ao_stereo st 1025000
  <> Some (spec_delay_estimating ao_stereo st (mkFifo 16 0 []) 1025000).
Proof.
  cbv zeta. split; [reflexivity|].
  intros H. vm_compute in H. discriminate H.
Qed.

(** Under its preconditions the callback always returns, and the state it
    hands to the estimator has the old timing fields. *)
Lemma outputaudio_total a st nframes bufs now_us :
  callback_pre st nframes ->
  exists st1 bufs1,
    outputaudio a st nframes bufs now_us
    = Some (update_estimate a st1 nframes now_us, bufs1, 0) /\
    estimate st1 = estimate st /\
    callback_time st1 = callback_time st /\
    callback_interval st1 = callback_interval st.
Proof.
  intros Hpre.
  destruct (paused st || underrun st || is_null (buffer st)) eqn:Hg.
  - rewrite outputaudio_gated by exact Hg. eexists _, _. repeat split.
  - apply orb_false_iff in Hg. destruct Hg as [Hg Hnull].
    apply orb_false_iff in Hg. destruct Hg as [Hp Hu].
    destruct (buffer st) as [b|] eqn:Hb; [|discriminate].
    rewrite (outputaudio_reading a st b nframes bufs now_us Hp Hu Hb Hpre).
    eexists _, _. split; [reflexivity|].
    destruct (av_fifo_size b <? nframes * 4 * num_ports st); repeat split.
Qed.

(** C9, as the code has it.  On every callback invocation with estimation
    enabled, the time predicted for this invocation is
    [last_predicted_fire_time] plus the nominal callback period recorded
    by the previous invocation; if it differs from the current time by
    strictly less than 2 ms, [last_predicted_fire_time] advances by that
    period, otherwise it is re-anchored to the current time; in both cases
    the nominal period is then set to [nframes / samplerate]. *)
Theorem callback_updates_estimate (a : ao) (st : jack_state) (nframes : Z)
    (bufs : planes) (now_us : Z) :
  estimate st = true ->
  callback_pre st nframes ->
  let now := now_float now_us in
  let predicted := F.fadd (callback_time st) (callback_interval st) in
  exists st' bufs',
    outputaudio a st nframes bufs now_us = Some (st', bufs', 0) /\
    callback_time st' = (if on_schedule (F.fsub predicted now) then predicted else now) /\
    callback_interval st' = F.fdiv (F.float_of_Z nframes) (F.float_of_Z (samplerate a)).
Proof.
  intros He Hpre now predicted.
  destruct (outputaudio_total a st nframes bufs now_us Hpre)
    as (st1 & bufs1 & Hout & He1 & Ht1 & Hi1).
  eexists _, _. split; [exact Hout|].
  unfold update_estimate. rewrite He1, He, Ht1, Hi1.
  split; reflexivity.
Qed.

(** C9 as stated fails, both ways.  With the last predicted fire time at
    1 s and a period of 20 ms: a callback firing at 1.021 s finds the stored
    time 21 ms from the current time, yet the stored time is advanced by the
    period (to 1.02 s) and not re-anchored; a callback firing at 1.001 s
    finds the stored time 1 ms from the current time, yet the stored time
    is re-anchored and not advanced. *)
Lemma estimate_anchor_counterexample :
  let st := small_state true false false [] in
  (exists st' bufs',
      outputaudio ao_stereo st 960 dirty_planes 1021000 = Some (st', bufs', 0) /\
      on_schedule (F.fsub (callback_time st) (now_float 1021000)) = false /\
      callback_time st' <> now_float 1021000) /\
  (exists st' bufs',
      outputaudio ao_stereo st 960 dirty_planes 1001000 = Some (st', bufs', 0) /\
      on_schedule (F.fsub (callback_time st) (now_float 1001000)) = true /\
      callback_time st' <> F.fadd (callback_time st) (callback_interval st)).
Proof.
  cbv zeta. split.
  - eexists _, _. split; [vm_compute; reflexivity|].
    split; [vm_compute; reflexivity|].
    intros H. vm_compute in H. discriminate H.
  - eexists _, _. split; [vm_compute; reflexivity|].
    split; [vm_compute; reflexivity|].
    intros H. vm_compute in H. discriminate H.
Qed.

(** ** Bytes and samples *)

Lemma sample_at_firstn l n k :
  0 <= k -> 4 * k + 4 <= n ->
  sample_at (firstn (Z.to_nat n) l) k = sample_at l k.
Proof.
  intros Hk Hn. unfold sample_at, byte_at. rewrite !nth_firstn.
  repeat match goal with
         | |- context [(?x <? ?y)%nat] => destruct (Nat.ltb_spec x y); [|lia]
         end.
  reflexivity.
Qed.

Lemma sample_at_skipn l m k :
  0 <= k -> 0 <= m -> m mod 4 = 0 ->
  sample_at (skipn (Z.to_nat m) l) k = sample_at l (m / 4 + k).
Proof.
  intros Hk Hm Hmod. unfold sample_at, byte_at. rewrite !nth_skipn.
  assert (Hq : m = 4 * (m / 4)) by (Z.to_euclidean_division_equations; lia).
  assert (H0 : 0 <= m / 4) by (apply Z.div_pos; lia).
  set (q := m / 4) in *.
  f_equal; f_equal; lia.
Qed.

Lemma firstn_snoc (A : Type) (d : A) (l : list A) n :
  (n < length l)%nat -> firstn (S n) l = firstn n l ++ [nth n l d].
Proof.
  revert l. induction n as [|n IH]; intros [|x l] H; cbn in *; try lia.
  - reflexivity.
  - f_equal. apply IH. lia.
Qed.

(** Reading a byte stream as samples and writing the samples back as bytes
    gives the stream. *)
Lemma samples_of_bytes l n :
  (4 * n <= length l)%nat ->
  flat_map (fun k => sample_bytes (sample_at l (Z.of_nat k))) (seq 0 n) = firstn (4 * n) l.
Proof.
  induction n as [|n IH]; intros Hlen.
  - reflexivity.
  - rewrite seq_S, flat_map_app, IH by lia. cbn [flat_map seq plus].
    rewrite app_nil_r. unfold sample_bytes, sample_at, byte_at. cbn [s0 s1 s2 s3].
    replace (4 * S n)%nat with (S (S (S (S (4 * n))))) by lia.
    rewrite (firstn_snoc _ x00 l (S (S (S (4 * n))))) by lia.
    rewrite (firstn_snoc _ x00 l (S (S (4 * n)))) by lia.
    rewrite (firstn_snoc _ x00 l (S (4 * n))) by lia.
    rewrite (firstn_snoc _ x00 l (4 * n)) by lia.
    rewrite <- !app_assoc. cbn [app].
    replace (Z.to_nat (4 * Z.of_nat n)) with (4 * n)%nat by lia.
    replace (Z.to_nat (4 * Z.of_nat n + 1)) with (S (4 * n)) by lia.
    replace (Z.to_nat (4 * Z.of_nat n + 2)) with (S (S (4 * n))) by lia.
    replace (Z.to_nat (4 * Z.of_nat n + 3)) with (S (S (S (4 * n)))) by lia.
    reflexivity.
Qed.

(** After a read of [4 * M] bytes whose runs end on float boundaries, the
    planes hold the first [M] samples of the buffer in frame order. *)
Lemma aligned_read_samples b N bufs0 M :
  0 < N -> fifo_wf b -> fifo_aligned b -> fifo_cap b <= C.INT_MAX ->
  0 <= M -> M * 4 <= av_fifo_size b ->
  forall k, 0 <= k < M ->
    snd (fifo_runs b (mkDi N 0 0, bufs0) (M * 4) deinterleave) (k mod N) (k / N)
    = sample_at (fifo_data b) k.
Proof.
  intros HN Hwf [Hacap Harpos] Hcap HM Hsize k Hk. unfold C.sizeof_float in *.
  rewrite fifo_runs_deinterleave by (assumption || lia).
  destruct Hwf as [Hr Hs].
  set (l1 := Z.min (fifo_cap b - fifo_rpos b) (M * 4)).
  assert (Hl1 : 0 <= l1 <= M * 4) by (subst l1; lia).
  assert (Hl1m : l1 mod 4 = 0).
  { subst l1. destruct (Z.min_spec (fifo_cap b - fifo_rpos b) (M * 4)) as [[_ ->]|[_ ->]].
    - Z.to_euclidean_division_equations. lia.
    - apply Z.mod_mul. lia. }
  assert (Hq1 : l1 = 4 * (l1 / 4)) by (Z.to_euclidean_division_equations; lia).
  assert (Hq2 : M * 4 - l1 = 4 * ((M * 4 - l1) / 4))
    by (Z.to_euclidean_division_equations; lia).
  pose proof (Z.mod_pos_bound k N HN) as Hm.
  pose proof (Z.div_mod k N ltac:(lia)) as Hd.
  assert (Hlin : k / N * N + k mod N = k) by lia.
  rewrite Hlin.
  set (q1 := l1 / 4) in *. set (q2 := (M * 4 - l1) / 4) in *.
  destruct (Z.leb_spec 0 (k mod N)); [|lia].
  destruct (Z.ltb_spec (k mod N) N); [|lia].
  destruct (Z.leb_spec 0 k); [|lia].
  destruct (Z.ltb_spec k (q1 + q2)); [|lia].
  cbn [andb].
  destruct (Z.ltb_spec k q1).
  - apply sample_at_firstn; lia.
  - rewrite sample_at_firstn by lia.
    rewrite sample_at_skipn by lia.
    f_equal. fold q1. lia.
Qed.

(** ** The alignment invariant of the driver's buffer *)

Lemma init_ao_open channels rate :
  0 < channels <= 4096 ->
  init_ao channels rate
  = Some (mkAo rate
               (C.int (C.size_t (C.int (channels * rate)) * 4))
               (Z.quot CHUNK_SIZE (channels * 4) * (channels * 4))
               (NUM_CHUNKS * (Z.quot CHUNK_SIZE (channels * 4) * (channels * 4)))).
Proof.
  intros Hc. unfold init_ao, C.sizeof_float.
  rewrite (size_t_small channels) by (unfold C.INT_MAX; lia).
  rewrite !(int_small (channels * 4)) by (unfold C.INT_MAX; lia).
  destruct (Z.eqb_spec (channels * 4) 0); [lia|]. reflexivity.
Qed.

Lemma init_buffer_invariant channels rate :
  0 < channels <= 4096 ->
  exists a,
    init_ao channels rate = Some a /\
    let b := av_fifo_alloc (buffersize a) in
    fifo_wf b /\ fifo_aligned b /\ fifo_cap b <= C.INT_MAX.
Proof.
  intros Hc. eexists. split; [apply (init_ao_open channels rate Hc)|].
  intros b. subst b. unfold av_fifo_alloc, fifo_wf, fifo_aligned, av_fifo_size.
  cbn [buffersize fifo_cap fifo_rpos fifo_data length].
  unfold C.sizeof_float, C.INT_MAX, CHUNK_SIZE, NUM_CHUNKS.
  assert (Hq : 1 <= 16 * 1024 ÷ (channels * 4) <= 16 * 1024).
  { split.
    - apply Z.quot_le_lower_bound; lia.
    - apply Z.quot_le_upper_bound; lia. }
  set (q := 16 * 1024 ÷ (channels * 4)) in *.
  assert (Hqu : q * (channels * 4) <= 16 * 1024).
  { subst q. rewrite Z.mul_comm. apply Z.mul_quot_le; lia. }
  repeat split; try lia.
  - replace (8 * (q * (channels * 4))) with (8 * q * channels * 4) by lia.
    apply Z.mod_mul. lia.
Qed.

Lemma drain_keeps_invariant b size :
  fifo_wf b -> fifo_aligned b ->
  0 <= size <= av_fifo_size b -> size mod C.sizeof_float = 0 ->
  fifo_wf (av_fifo_drain b size) /\ fifo_aligned (av_fifo_drain b size) /\
  fifo_cap (av_fifo_drain b size) = fifo_cap b.
Proof.
  intros [Hr Hs] [Hacap Harpos] Hsize Hmod.
  unfold fifo_wf, fifo_aligned.
  rewrite av_fifo_drain_size by exact Hsize.
  unfold av_fifo_drain. cbn [fifo_cap fifo_rpos]. unfold C.sizeof_float in *.
  destruct (Z.leb_spec (fifo_cap b) (fifo_rpos b + size));
    repeat split; try lia; Z.to_euclidean_division_equations; lia.
Qed.

Lemma reset_keeps_invariant b :
  fifo_wf b -> fifo_aligned b ->
  fifo_wf (av_fifo_reset b) /\ fifo_aligned (av_fifo_reset b).
Proof.
  intros [Hr Hs] [Hacap Harpos].
  unfold fifo_wf, fifo_aligned, av_fifo_reset, av_fifo_size.
  cbn [fifo_cap fifo_rpos fifo_data length].
  repeat split; try lia; try exact Hacap.
Qed.

Lemma write_keeps_invariant b data len b' n :
  fifo_wf b -> fifo_aligned b ->
  write_buffer (Some b) data len = Some (b', n) ->
  fifo_wf b' /\ fifo_aligned b' /\ fifo_cap b' = fifo_cap b.
Proof.
  intros [Hr Hs] Hal Hw. unfold write_buffer, av_fifo_generic_write in Hw.
  cbn [bind] in Hw. injection Hw as <- <-.
  unfold fifo_wf, fifo_aligned, av_fifo_size in *. cbn [fifo_cap fifo_rpos fifo_data].
  repeat split; try apply Hal; try lia.
  rewrite length_app, length_firstn. unfold av_fifo_space, av_fifo_size.
  destruct (Z.ltb_spec (fifo_cap b - Z.of_nat (length (fifo_data b))) len); lia.
Qed.

Lemma outputaudio_keeps_ports a st nframes bufs now_us st' bufs' r :
  outputaudio a st nframes bufs now_us = Some (st', bufs', r) ->
  num_ports st' = num_ports st.
Proof.
  unfold outputaudio. intros H.
  destruct (paused st || underrun st || is_null (buffer st)).
  - cbn [bind] in H. injection H as <- _ _. apply update_estimate_keeps.
  - destruct (read_buffer _ _ _ _) as [[[b1 bufs1] got]|]; [|discriminate].
    cbn [bind] in H. injection H as <- _ _.
    match goal with
    | |- context [update_estimate a ?s nframes now_us] =>
        destruct (update_estimate_keeps a s nframes now_us) as (_ & _ & _ & ->)
    end.
    destruct (_ <? _); reflexivity.
Qed.

Lemma run_callbacks_keep_ports a cbs :
  forall st st',
    run_callbacks a st cbs = Some st' -> num_ports st' = num_ports st.
Proof.
  induction cbs as [|[[nframes bufs] now_us] cbs IH]; intros st st' Hrun.
  - injection Hrun as <-. reflexivity.
  - cbn [run_callbacks] in Hrun.
    destruct (outputaudio a st nframes bufs now_us) as [[[st1 bufs1] r]|] eqn:Hout;
      [|discriminate].
    cbn [bind] in Hrun. rewrite (IH _ _ Hrun).
    exact (outputaudio_keeps_ports _ _ _ _ _ _ _ _ Hout).
Qed.

(** Every call keeps the invariant of the buffer and the port count: the
    storage and the read cursor of a reachable buffer are float-aligned. *)
Lemma step_keeps_invariant a st c st' :
  buffer_inv (buffer st) -> 0 <= num_ports st <= C.INT_MAX -> call_ok c ->
  step a st c = Some st' ->
  buffer_inv (buffer st') /\ num_ports st' = num_ports st.
Proof.
  intros Hinv HN Hc Hstep. destruct c; cbn [step call_ok] in *.
  - destruct (paused st || underrun st || is_null (buffer st)) eqn:Hg.
    + rewrite outputaudio_gated in Hstep by exact Hg. cbn [bind] in Hstep.
      injection Hstep as <-.
      destruct (update_estimate_keeps a st nframes now_us) as (-> & _ & _ & ->). auto.
    + apply orb_false_iff in Hg. destruct Hg as [Hg Hnull].
      apply orb_false_iff in Hg. destruct Hg as [Hp Hu].
      destruct (buffer st) as [b|] eqn:Hb; [|discriminate].
      destruct Hinv as (Hwf & Hal & Hcap).
      assert (Hpre : callback_pre st nframes).
      { unfold callback_pre. rewrite Hb. cbn [buffer_ok]. auto. }
      rewrite (outputaudio_reading a st b nframes bufs now_us Hp Hu Hb Hpre) in Hstep.
      cbn [bind] in Hstep. injection Hstep as <-.
      destruct (read_buffer_spec b bufs nframes (num_ports st) Hwf Hcap Hc HN)
        as (_ & Hbytes & _).
      set (got := if av_fifo_size b <? nframes * 4 * num_ports st
                  then av_fifo_size b / (num_ports st * 4) else nframes) in *.
      destruct (drain_keeps_invariant b (got * num_ports st * 4) Hwf Hal Hbytes)
        as (Hwf' & Hal' & Hcap').
      { apply Z.mod_mul. unfold C.sizeof_float. lia. }
      match goal with
      | |- context [update_estimate a ?s nframes now_us] =>
          destruct (update_estimate_keeps a s nframes now_us) as (-> & _ & _ & ->)
      end.
      destruct (av_fifo_size b <? nframes * 4 * num_ports st);
        cbn [set_underrun set_buffer buffer num_ports buffer_inv];
        (split; [|reflexivity]); repeat split; try apply Hwf'; try apply Hal'; lia.
  - destruct (play a st data len flags) as [[st1 n]|] eqn:Hplay; [|discriminate].
    cbn [bind] in Hstep. injection Hstep as <-.
    unfold play in Hplay.
    match type of Hplay with
    | bind ?m _ = _ => destruct m as [len'|]; [|discriminate]
    end.
    cbn [bind set_underrun buffer] in Hplay.
    destruct (buffer st) as [b|] eqn:Hb; [|discriminate].
    destruct Hinv as (Hwf & Hal & Hcap).
    destruct (write_buffer (Some b) data _) as [[b' n']|] eqn:Hw; [|discriminate].
    cbn [bind] in Hplay. injection Hplay as <- <-.
    destruct (write_keeps_invariant _ _ _ _ _ Hwf Hal Hw) as (Hwf' & Hal' & Hcap').
    cbn [set_buffer buffer num_ports buffer_inv]. rewrite Hcap'. auto.
  - destruct (get_delay a st now_us); [|discriminate]. injection Hstep as <-. auto.
  - destruct (get_space st); [|discriminate]. injection Hstep as <-. auto.
  - injection Hstep as <-. auto.
  - injection Hstep as <-. auto.
  - destruct (buffer st) as [b|] eqn:Hb.
    + rewrite (reset_open st b Hb) in Hstep. injection Hstep as <-.
      destruct Hinv as (Hwf & Hal & Hcap).
      destruct (reset_keeps_invariant b Hwf Hal).
      cbn [audio_resume audio_pause set_paused set_buffer buffer num_ports buffer_inv].
      auto.
    + unfold reset in Hstep. cbn [set_paused buffer] in Hstep. rewrite Hb in Hstep.
      discriminate.
  - unfold uninit in Hstep.
    match type of Hstep with
    | bind ?m _ = _ => destruct m as [st1|] eqn:Hd; [|discriminate]
    end.
    cbn [bind] in Hstep.
    destruct (reset st1) as [st2|] eqn:Hr; [|discriminate]. cbn [bind] in Hstep.
    destruct (run_callbacks a st2 flushing) as [st3|] eqn:Hf; [|discriminate].
    cbn [bind] in Hstep. injection Hstep as <-.
    cbn [set_buffer buffer num_ports buffer_inv]. split; [exact I|].
    rewrite (run_callbacks_keep_ports _ _ _ _ Hf).
    assert (H2 : num_ports st2 = num_ports st1).
    { unfold reset in Hr. cbn [set_paused buffer] in Hr.
      destruct (buffer st1); [|discriminate]. injection Hr as <-. reflexivity. }
    rewrite H2. destruct immed.
    + injection Hd as <-. reflexivity.
    + destruct (get_delay a st now_us); [|discriminate]. cbn [bind] in Hd.
      exact (run_callbacks_keep_ports _ _ _ _ Hd).
Qed.

Lemma run_keeps_invariant a cs :
  forall st st',
    buffer_inv (buffer st) -> 0 <= num_ports st <= C.INT_MAX ->
    Forall call_ok cs ->
    run a st cs = Some st' ->
    buffer_inv (buffer st') /\ num_ports st' = num_ports st.
Proof.
  induction cs as [|c cs IH]; intros st st' Hinv HN Hcs Hrun.
  - injection Hrun as <-. auto.
  - cbn [run] in Hrun. destruct (step a st c) as [st1|] eqn:Hstep; [|discriminate].
    cbn [bind] in Hrun. inversion Hcs as [|? ? Hc Hcs']; subst.
    destruct (step_keeps_invariant a st c st1 Hinv HN Hc Hstep) as [Hinv1 HN1].
    destruct (IH st1 st' Hinv1 ltac:(rewrite HN1; exact HN) Hcs' Hrun) as [Hinv' HN'].
    split; [exact Hinv'|]. congruence.
Qed.

(** ** The round trip through the buffer *)

(** C8, as the code has it.  A buffer whose storage ends and whose read
    cursor lies on float boundaries (as the driver's always do) holds [K]
    whole frames of [N] planes; [len] bytes, [F] whole frames, are pushed
    with [len <= available_space()].  The push accepts them all, and a pop
    of the [K + F] frames then queued returns the bytes queued before
    followed by exactly the pushed bytes in their original order, when the
    planes are read back frame by frame.  For an empty buffer ([K = 0]) a
    pop of the same total byte count yields exactly the pushed bytes. *)
Theorem push_pop_round_trip (b : AVFifoBuffer) (data : list byte) (len : Z)
    (bufs : planes) (K F N : Z) :
  fifo_wf b -> fifo_aligned b -> fifo_cap b <= C.INT_MAX ->
  0 < N <= C.INT_MAX -> 0 <= K -> 0 <= F ->
  av_fifo_size b = K * N * C.sizeof_float ->
  len = F * N * C.sizeof_float ->
  len = Z.of_nat (length data) ->
  len <= av_fifo_space b ->
  exists b1 b2 bufs',
    write_buffer (Some b) data len = Some (b1, len) /\
    read_buffer (Some b1) bufs (K + F) N = Some (b2, bufs', K + F) /\
    interleave bufs' N (K + F) = fifo_data b ++ data /\
    (forall k, 0 <= k < (K + F) * N ->
               bufs' (k mod N) (k / N) = sample_at (fifo_data b ++ data) k) /\
    av_fifo_size b2 = 0 /\
    (K = 0 -> interleave bufs' N F = data).
Proof.
  intros Hwf Hal Hcap HN HK HF Hold Hlen Hdata Hspace. unfold C.sizeof_float, C.INT_MAX in *.
  pose proof Hwf as [Hr Hs].
  destruct (write_buffer_spec b data len Hs ltac:(lia)) as [Hw Hsize1].
  replace (Z.min len (av_fifo_space b)) with len in * by lia.
  replace (firstn (Z.to_nat len) data) with data in *
    by (symmetry; apply firstn_all2; lia).
  set (b1 := mkFifo (fifo_cap b) (fifo_rpos b) (fifo_data b ++ data)) in *.
  assert (Hwf1 : fifo_wf b1).
  { unfold fifo_wf. rewrite Hsize1. subst b1. cbn [fifo_cap fifo_rpos].
    unfold av_fifo_space in Hspace. lia. }
  assert (Hal1 : fifo_aligned b1) by exact Hal.
  assert (Hcap1 : fifo_cap b1 <= C.INT_MAX) by exact Hcap.
  assert (Hsz1 : av_fifo_size b1 = (K + F) * N * 4) by lia.
  assert (HKF : 0 <= K + F <= C.INT_MAX).
  { unfold C.INT_MAX in *. destruct Hwf1 as [_ Hs1].
    assert (K + F <= (K + F) * N) by nia. lia. }
  destruct (read_buffer_spec b1 bufs (K + F) N Hwf1 Hcap1 HKF ltac:(unfold C.INT_MAX; lia))
    as (_ & _ & Hrb).
  assert (Hfull : (av_fifo_size b1 <? (K + F) * 4 * N) = false) by (apply Z.ltb_ge; lia).
  rewrite Hfull in Hrb.
  set (bufs' := snd (fifo_runs b1 (mkDi N 0 0, bufs) ((K + F) * N * 4) deinterleave)) in *.
  assert (Hsamples : forall k, 0 <= k < (K + F) * N ->
                               bufs' (k mod N) (k / N) = sample_at (fifo_data b ++ data) k).
  { intros k Hk. subst bufs'.
    apply (aligned_read_samples b1 N bufs ((K + F) * N)); try assumption; lia. }
  assert (Hinter : interleave bufs' N (K + F) = fifo_data b ++ data).
  { unfold interleave. rewrite flat_map_concat_map.
    rewrite (map_ext_in _ (fun k => sample_bytes (sample_at (fifo_data b ++ data) (Z.of_nat k)))).
    - rewrite <- flat_map_concat_map. rewrite samples_of_bytes.
      + apply firstn_all2. unfold av_fifo_size in Hsz1. cbn [fifo_data b1] in Hsz1. lia.
      + unfold av_fifo_size in Hsz1. cbn [fifo_data b1] in Hsz1. lia.
    - intros k Hin. apply in_seq in Hin. f_equal. apply Hsamples. lia. }
  exists b1, (av_fifo_drain b1 ((K + F) * N * 4)), bufs'.
  split; [exact Hw|]. split; [exact Hrb|]. split; [exact Hinter|].
  split; [exact Hsamples|]. split.
  - rewrite av_fifo_drain_size by lia. lia.
  - intros HK0. subst K. replace (0 + F) with F in Hinter by lia.
    rewrite Hinter.
    assert (Hnil : fifo_data b = []).
    { unfold av_fifo_size in Hold. destruct (fifo_data b); [reflexivity|cbn in Hold; lia]. }
    rewrite Hnil. reflexivity.
Qed.

(** C8 as stated fails: pushed behind four queued bytes, four bytes do not
    come back from a pop of four bytes; the bytes queued before do. *)
Lemma round_trip_nonempty_counterexample :
  let b := mkFifo 16 0 (byte_block 4 x01) in
  let data := byte_block 4 x02 in
  4 <= av_fifo_space b /\
  exists b1 b2 bufs',
    write_buffer (Some b) data 4 = Some (b1, 4) /\
    read_buffer (Some b1) dirty_planes 1 1 = Some (b2, bufs', 1) /\
    interleave bufs' 1 1 = byte_block 4 x01 /\
    interleave bufs' 1 1 <> data.
Proof.
  cbv zeta. split; [vm_compute; discriminate|].
  eexists _, _, _. split; [reflexivity|]. split; [vm_compute; reflexivity|].
  split; [vm_compute; reflexivity|].
  intros H. vm_compute in H. discriminate H.
Qed.

(** * The theorems at concrete inputs *)

Ltac by_compute :=
  vm_compute; repeat split; try reflexivity; try discriminate;
  try (intro; discriminate).

Lemma callback_silence_when_gated_witness :
  0 <= 4 <= C.INT_MAX /\
  (paused paused_state = true \/ underrun paused_state = true \/ buffer paused_state = None) /\
  exists st' bufs',
    outputaudio ao_stereo paused_state 4 dirty_planes 1000000 = Some (st', bufs', 0) /\
    (forall i j, 0 <= i < num_ports paused_state -> 0 <= j < 4 -> bufs' i j = sample_zero) /\
    buffer st' = buffer paused_state /\
    occupancy st' = occupancy paused_state.
Proof.
  assert (H1 : 0 <= 4 <= C.INT_MAX) by (unfold C.INT_MAX; lia).
  assert (H2 : paused paused_state = true \/ underrun paused_state = true
               \/ buffer paused_state = None) by (left; reflexivity).
  split; [exact H1|]. split; [exact H2|].
  exact (callback_silence_when_gated ao_stereo paused_state 4 dirty_planes 1000000 H1 H2).
Defined.

Lemma short_read_underrun_witness :
  let b := mkFifo 16 0 (ramp 8) in
  fifo_wf b /\ av_fifo_size b < 4 * 1 * C.sizeof_float /\
  exists b' bufs',
    read_buffer (Some b) dirty_planes 4 1 = Some (b', bufs', 2) /\
    (forall i j, 0 <= i < 1 -> 2 <= j < 4 -> bufs' i j = sample_zero) /\
    (forall a st now_us,
        buffer st = Some b -> num_ports st = 1 ->
        paused st = false -> underrun st = false ->
        exists st', outputaudio a st 4 dirty_planes now_us = Some (st', bufs', 0) /\
                    underrun st' = true).
Proof.
  cbv zeta.
  assert (H1 : fifo_wf (mkFifo 16 0 (ramp 8))) by (unfold fifo_wf; cbn; lia).
  assert (H2 : fifo_cap (mkFifo 16 0 (ramp 8)) <= C.INT_MAX) by (unfold C.INT_MAX; cbn; lia).
  assert (H3 : 0 <= 4 <= C.INT_MAX) by (unfold C.INT_MAX; lia).
  assert (H4 : 0 <= 1 <= C.INT_MAX) by (unfold C.INT_MAX; lia).
  assert (H5 : av_fifo_size (mkFifo 16 0 (ramp 8)) < 4 * 1 * C.sizeof_float) by (cbn; lia).
  split; [exact H1|]. split; [exact H5|].
  exact (short_read_underrun (mkFifo 16 0 (ramp 8)) dirty_planes 4 1 H1 H2 H3 H4 H5).
Defined.

Lemma underrun_persists_until_play_witness :
  let b := av_fifo_alloc (buffersize ao_stereo) in
  paused fresh_state = false /\ underrun fresh_state = false /\
  buffer fresh_state = Some b /\ callback_pre fresh_state 4 /\
  av_fifo_size b < 4 * num_ports fresh_state * C.sizeof_float /\
  forallb (fun c => negb (is_play c || is_uninit c)) idle_calls = true /\
  Forall call_ok idle_calls /\
  play_ok ao_stereo (ramp 8) 8 0 /\
  exists st1 bufs1 st2 st3 n,
    outputaudio ao_stereo fresh_state 4 dirty_planes 3 = Some (st1, bufs1, 0) /\
    underrun st1 = true /\
    run ao_stereo st1 idle_calls = Some st2 /\
    underrun st2 = true /\
    (exists st4, reset st2 = Some st4 /\ underrun st4 = true) /\
    (forall immed t draining flushing,
        Forall callback_ok draining -> Forall callback_ok flushing ->
        exists st5, uninit ao_stereo st2 immed t draining flushing = Some st5 /\
                    underrun st5 = true) /\
    play ao_stereo st2 (ramp 8) 8 0 = Some (st3, n) /\
    underrun st3 = false.
Proof.
  cbv zeta.
  assert (H1 : paused fresh_state = false) by reflexivity.
  assert (H2 : underrun fresh_state = false) by reflexivity.
  assert (H3 : buffer fresh_state = Some (av_fifo_alloc (buffersize ao_stereo))) by reflexivity.
  assert (H4 : callback_pre fresh_state 4).
  { by_compute. }
  assert (H5 : av_fifo_size (av_fifo_alloc (buffersize ao_stereo))
               < 4 * num_ports fresh_state * C.sizeof_float) by by_compute.
  assert (H6 : forallb (fun c => negb (is_play c || is_uninit c)) idle_calls = true)
    by reflexivity.
  assert (H7 : Forall call_ok idle_calls)
    by (repeat constructor; unfold C.INT_MAX; lia).
  assert (H8 : play_ok ao_stereo (ramp 8) 8 0)
    by (unfold play_ok, C.INT_MAX; cbn; lia).
  repeat (split; [assumption|]).
  exact (underrun_persists_until_play ao_stereo fresh_state _ 4 dirty_planes 3 idle_calls
           (ramp 8) 8 0 H1 H2 H3 H4 H5 H6 H7 H8).
Defined.

Lemma write_buffer_truncates_witness :
  let b := av_fifo_alloc 8192 in
  let data := byte_block (Z.to_nat 10000) x01 in
  av_fifo_size b <= fifo_cap b /\
  0 <= 10000 <= Z.of_nat (length data) /\
  exists b',
    write_buffer (Some b) data 10000 = Some (b', 8192) /\
    av_fifo_size b' = 8192.
Proof.
  cbv zeta.
  assert (H1 : av_fifo_size (av_fifo_alloc 8192) <= fifo_cap (av_fifo_alloc 8192))
    by (cbn; lia).
  assert (H2 : 0 <= 10000 <= Z.of_nat (length (byte_block (Z.to_nat 10000) x01))).
  { unfold byte_block. rewrite repeat_length. lia. }
  split; [exact H1|]. split; [exact H2|].
  destruct (write_buffer_truncates (av_fifo_alloc 8192)
              (byte_block (Z.to_nat 10000) x01) 10000 H1 H2)
    as (b' & _ & _ & _ & _ & _ & Hscenario).
  exists b'. apply Hscenario; reflexivity.
Defined.

Lemma reset_empties_and_clears_paused_witness :
  0 < occupancy paused_state /\
  exists b st',
    buffer paused_state = Some b /\
    reset paused_state = Some st' /\
    st' = audio_resume (set_buffer (audio_pause paused_state) (Some (av_fifo_reset b))) /\
    occupancy st' = 0 /\
    paused st' = false /\
    (paused st' = paused paused_state <-> paused paused_state = false).
Proof.
  assert (H1 : 0 < occupancy paused_state) by reflexivity.
  split; [exact H1|].
  exact (reset_empties_and_clears_paused paused_state H1).
Defined.

Lemma get_delay_formula_witness :
  let st := playing_state 8 in
  let b := mkFifo 16 0 (ramp 8) in
  buffer st = Some b /\
  get_delay ao_stereo st 1025000 =
  Some (F.fadd (queued_seconds ao_stereo b)
               (fmax0 (F.fadd (jack_latency st)
                              (F.fsub (callback_interval st) (elapsed_since st 1025000))))).
Proof.
  cbv zeta.
  assert (H1 : buffer (playing_state 8) = Some (mkFifo 16 0 (ramp 8))) by reflexivity.
  split; [exact H1|].
  exact (proj1 (get_delay_formula ao_stereo (playing_state 8) (mkFifo 16 0 (ramp 8))
                                  1025000 H1)).
Defined.

Lemma deinterleave_round_robin_witness :
  0 < 2 /\ 0 <= 24 <= C.INT_MAX /\
  let bufs' := snd (deinterleave (mkDi 2 0 0, dirty_planes) (ramp 24) 24) in
  (forall k, 0 <= k < 24 / C.sizeof_float -> bufs' (k mod 2) (k / 2) = sample_at (ramp 24) k) /\
  (forall i j, (forall k, 0 <= k < 24 / C.sizeof_float -> ~ (i = k mod 2 /\ j = k / 2)) ->
               bufs' i j = dirty_planes i j).
Proof.
  assert (H1 : 0 < 2) by lia.
  assert (H2 : 0 <= 24 <= C.INT_MAX) by (unfold C.INT_MAX; lia).
  split; [exact H1|]. split; [exact H2|].
  exact (deinterleave_round_robin (ramp 24) 24 2 dirty_planes H1 H2).
Defined.

Lemma push_pop_round_trip_witness :
  fifo_wf wrapped_empty /\ fifo_aligned wrapped_empty /\
  av_fifo_size wrapped_empty = 0 /\
  16 = Z.of_nat (length (ramp 16)) /\
  16 <= av_fifo_space wrapped_empty /\
  exists b1 b2 bufs',
    write_buffer (Some wrapped_empty) (ramp 16) 16 = Some (b1, 16) /\
    read_buffer (Some b1) dirty_planes 2 2 = Some (b2, bufs', 2) /\
    interleave bufs' 2 2 = ramp 16.
Proof.
  assert (H1 : fifo_wf wrapped_empty) by by_compute.
  assert (H2 : fifo_aligned wrapped_empty) by by_compute.
  assert (H3 : fifo_cap wrapped_empty <= C.INT_MAX) by by_compute.
  assert (H4 : 0 < 2 <= C.INT_MAX) by by_compute.
  assert (H5 : 0 <= 0) by lia.
  assert (H6 : 0 <= 2) by lia.
  assert (H7 : av_fifo_size wrapped_empty = 0 * 2 * C.sizeof_float) by reflexivity.
  assert (H8 : 16 = 2 * 2 * C.sizeof_float) by reflexivity.
  assert (H9 : 16 = Z.of_nat (length (ramp 16))) by reflexivity.
  assert (H10 : 16 <= av_fifo_space wrapped_empty) by by_compute.
  split; [exact H1|]. split; [exact H2|]. split; [exact H7|].
  split; [exact H9|]. split; [exact H10|].
  destruct (push_pop_round_trip wrapped_empty (ramp 16) 16 dirty_planes 0 2 2
              H1 H2 H3 H4 H5 H6 H7 H8 H9 H10)
    as (b1 & b2 & bufs' & Hw & Hr & _ & _ & _ & Hempty).
  exists b1, b2, bufs'. split; [exact Hw|]. split; [exact Hr|].
  exact (Hempty eq_refl).
Defined.

Lemma callback_updates_estimate_witness :
  let st := playing_state 8 in
  let now := now_float 1021000 in
  let predicted := F.fadd (callback_time st) (callback_interval st) in
  estimate st = true /\ callback_pre st 960 /\
  exists st' bufs',
    outputaudio ao_stereo st 960 dirty_planes 1021000 = Some (st', bufs', 0) /\
    callback_time st' = (if on_schedule (F.fsub predicted now) then predicted else now) /\
    callback_interval st' = F.fdiv (F.float_of_Z 960) (F.float_of_Z (samplerate ao_stereo)).
Proof.
  cbv zeta.
  assert (H1 : estimate (playing_state 8) = true) by reflexivity.
  assert (H2 : callback_pre (playing_state 8) 960) by by_compute.
  split; [exact H1|]. split; [exact H2|].
  exact (callback_updates_estimate ao_stereo (playing_state 8) 960 dirty_planes 1021000 H1 H2).
Defined.

Lemma read_buffer_pops_whole_frames_witness :
  let b := mkFifo 16 0 (ramp 10) in
  fifo_wf b /\ av_fifo_size b = 10 /\
  exists b' bufs' got,
    read_buffer (Some b) dirty_planes 4 2 = Some (b', bufs', got) /\
    av_fifo_size b - av_fifo_size b' = got * (2 * C.sizeof_float) /\
    av_fifo_size b' = av_fifo_size b mod (2 * C.sizeof_float).
Proof.
  cbv zeta.
  assert (H1 : fifo_wf (mkFifo 16 0 (ramp 10))) by by_compute.
  assert (H2 : fifo_cap (mkFifo 16 0 (ramp 10)) <= C.INT_MAX) by by_compute.
  assert (H3 : 0 <= 4 <= C.INT_MAX) by by_compute.
  assert (H4 : 0 <= 2 <= C.INT_MAX) by by_compute.
  split; [exact H1|]. split; [reflexivity|].
  destruct (read_buffer_pops_whole_frames (mkFifo 16 0 (ramp 10)) dirty_planes 4 2
              H1 H2 H3 H4)
    as (b' & bufs' & got & Hr & Hpop & _ & _ & Hshort & _).
  exists b', bufs', got. split; [exact Hr|]. split; [exact Hpop|].
  apply Hshort. by_compute.
Defined.

(** The scenarios evaluate as the theorems say. *)

Example short_read_leaves_remainder :
  match read_buffer (Some (mkFifo 16 0 (ramp 10))) dirty_planes 4 2 with
  | Some (b', bufs', got) =>
      got = 1 /\ fifo_data b' = skipn 8 (ramp 10) /\ fifo_rpos b' = 8 /\
      bufs' 0 0 = sample_at (ramp 10) 0 /\ bufs' 1 0 = sample_at (ramp 10) 1 /\
      bufs' 0 1 = sample_zero /\ bufs' 1 3 = sample_zero /\
      bufs' 2 0 = dirty_planes 2 0 /\ bufs' 0 4 = dirty_planes 0 4
  | None => False
  end.
Proof. vm_compute. repeat split. Qed.

Example wrapped_read_is_in_order :
  match write_buffer (Some wrapped_empty) (ramp 16) 16 with
  | Some (b1, _) =>
      match read_buffer (Some b1) dirty_planes 2 2 with
      | Some (b2, bufs', got) =>
          got = 2 /\ fifo_rpos b2 = 8 /\ interleave bufs' 2 2 = ramp 16
      | None => False
      end
  | None => False
  end.
Proof. vm_compute. repeat split. Qed.

Example delay_at_25ms :
  get_delay ao_stereo (small_state true false false []) 1025000
  = Some (S754_finite false 10737416 (-31)).
Proof. vm_compute. reflexivity. Qed.

(** * Further properties of the driver *)

(** ** What [silence] and [deinterleave] write *)

(** X3. [silence] zeroes the first [cnt] positions of the first [num_bufs]
    planes and writes nowhere else: positions from [cnt] on and planes from
    [num_bufs] on keep their content.  Silencing twice is silencing once. *)
Theorem silence_exact (bufs : planes) (cnt num_bufs : Z) :
  0 <= cnt <= C.INT_MAX ->
  (forall i j, 0 <= i < num_bufs -> 0 <= j < cnt ->
               silence bufs cnt num_bufs i j = sample_zero) /\
  (forall i j, ~ (0 <= i < num_bufs /\ 0 <= j < cnt) ->
               silence bufs cnt num_bufs i j = bufs i j) /\
  (forall i j, silence (silence bufs cnt num_bufs) cnt num_bufs i j
               = silence bufs cnt num_bufs i j).
Proof.
  intros Hc. split; [|split].
  - intros i j Hi Hj. rewrite silence_spec by exact Hc. zbool.
  - intros i j Hout. rewrite silence_spec by exact Hc. zbool.
  - intros i j. rewrite !silence_spec by exact Hc. zbool.
Qed.

Lemma silence_exact_witness :
  0 <= 3 <= C.INT_MAX /\
  silence dirty_planes 3 2 1 2 = sample_zero /\
  silence dirty_planes 3 2 1 3 = dirty_planes 1 3 /\
  silence dirty_planes 3 2 2 0 = dirty_planes 2 0.
Proof.
  assert (H : 0 <= 3 <= C.INT_MAX) by by_compute.
  destruct (silence_exact dirty_planes 3 2 H) as (Hz & Hk & _).
  split; [exact H|]. split; [apply Hz; lia|]. split; apply Hk; lia.
Defined.

Lemma byte_at_app_l c1 c2 n :
  0 <= n < Z.of_nat (length c1) -> byte_at (c1 ++ c2) n = byte_at c1 n.
Proof. intros H. unfold byte_at. apply app_nth1. lia. Qed.

Lemma byte_at_app_r c1 c2 n :
  Z.of_nat (length c1) <= n ->
  byte_at (c1 ++ c2) n = byte_at c2 (n - Z.of_nat (length c1)).
Proof.
  intros H. unfold byte_at. rewrite app_nth2 by lia. f_equal. lia.
Qed.

Lemma sample_at_app_l c1 c2 k :
  0 <= k -> 4 * k + 4 <= Z.of_nat (length c1) ->
  sample_at (c1 ++ c2) k = sample_at c1 k.
Proof.
  intros Hk Hl. unfold sample_at. rewrite !byte_at_app_l by lia. reflexivity.
Qed.

Lemma sample_at_app_r c1 c2 q k :
  Z.of_nat (length c1) = 4 * q -> q <= k ->
  sample_at (c1 ++ c2) k = sample_at c2 (k - q).
Proof.
  intros Hl Hk. unfold sample_at. rewrite !byte_at_app_r by lia.
  f_equal; f_equal; lia.
Qed.

(** X4. [deinterleave] keeps its cursor in the struct, so a source handed
    over in two pieces, the first a whole number of floats, is
    deinterleaved exactly as the whole source in one call: same planes,
    same final cursor. *)
Theorem deinterleave_resumes (c1 c2 : list byte) (l1 l2 N cur p : Z) (bufs : planes) :
  0 < N -> 0 <= cur < N ->
  0 <= l1 -> 0 <= l2 -> l1 + l2 <= C.INT_MAX ->
  l1 mod C.sizeof_float = 0 ->
  Z.of_nat (length c1) = l1 ->
  let two := deinterleave (deinterleave (mkDi N cur p, bufs) c1 l1) c2 l2 in
  let one := deinterleave (mkDi N cur p, bufs) (c1 ++ c2) (l1 + l2) in
  fst two = fst one /\ forall i j, snd two i j = snd one i j.
Proof.
  intros HN Hcur H1 H2 Hsum Hmod Hlen two one. subst two one.
  unfold C.sizeof_float, C.INT_MAX in *.
  destruct (deinterleave_spec c1 l1 N cur p bufs HN Hcur ltac:(unfold C.INT_MAX; lia))
    as (cur1 & p1 & bufs1 & Hrun1 & Hcur1 & Hlin1 & Hget1).
  rewrite Hrun1.
  destruct (deinterleave_spec c2 l2 N cur1 p1 bufs1 HN Hcur1 ltac:(unfold C.INT_MAX; lia))
    as (cur2 & p2 & bufs2 & Hrun2 & Hcur2 & Hlin2 & Hget2).
  rewrite Hrun2.
  destruct (deinterleave_spec (c1 ++ c2) (l1 + l2) N cur p bufs HN Hcur
              ltac:(unfold C.INT_MAX; lia))
    as (cur3 & p3 & bufs3 & Hrun3 & Hcur3 & Hlin3 & Hget3).
  rewrite Hrun3. cbn [fst snd].
  assert (Hq : l1 = 4 * (l1 / 4)) by (Z.to_euclidean_division_equations; lia).
  assert (Hq1 : 0 <= l1 / 4) by (apply Z.div_pos; lia).
  assert (Hq2 : 0 <= l2 / 4) by (apply Z.div_pos; lia).
  assert (Hdiv : (l1 + l2) / 4 = l1 / 4 + l2 / 4)
    by (Z.to_euclidean_division_equations; lia).
  set (q1 := l1 / 4) in *. set (q2 := l2 / 4) in *.
  split.
  - assert (Heq : p2 * N + cur2 = p3 * N + cur3) by lia.
    apply frame_index_inj in Heq; try lia.
    destruct Heq as [-> ->]. reflexivity.
  - intros i j. rewrite Hget2, Hget1, Hget3, Hlin1, Hdiv.
    set (x := j * N + i). set (lin := p * N + cur).
    destruct (Z.leb_spec 0 i); [|reflexivity].
    destruct (Z.ltb_spec i N); [|reflexivity].
    cbn [andb].
    destruct (Z.leb_spec (lin + q1) x).
    + destruct (Z.ltb_spec x (lin + q1 + q2)).
      * cbn [andb].
        destruct (Z.leb_spec lin x); [|lia].
        destruct (Z.ltb_spec x (lin + (q1 + q2))); [|lia].
        cbn [andb]. rewrite (sample_at_app_r c1 c2 q1) by lia.
        f_equal. lia.
      * cbn [andb].
        destruct (Z.ltb_spec x (lin + q1)); [lia|].
        destruct (Z.ltb_spec x (lin + (q1 + q2))); [lia|].
        rewrite !andb_false_r. reflexivity.
    + cbn [andb].
      destruct (Z.leb_spec lin x); [|reflexivity].
      destruct (Z.ltb_spec x (lin + q1)); [|lia].
      destruct (Z.ltb_spec x (lin + (q1 + q2))); [|lia].
      cbn [andb]. symmetry. apply sample_at_app_l; lia.
Qed.

Lemma deinterleave_resumes_witness :
  let two := deinterleave (deinterleave (mkDi 2 1 0, dirty_planes) (ramp 8) 8) (ramp 6) 6 in
  let one := deinterleave (mkDi 2 1 0, dirty_planes) (ramp 8 ++ ramp 6) (8 + 6) in
  8 mod C.sizeof_float = 0 /\ Z.of_nat (length (ramp 8)) = 8 /\
  fst two = fst one /\ forall i j, snd two i j = snd one i j.
Proof.
  cbv zeta.
  assert (H1 : 0 < 2) by lia.
  assert (H2 : 0 <= 1 < 2) by lia.
  assert (H3 : 0 <= 8) by lia.
  assert (H4 : 0 <= 6) by lia.
  assert (H5 : 8 + 6 <= C.INT_MAX) by by_compute.
  assert (H6 : 8 mod C.sizeof_float = 0) by reflexivity.
  assert (H7 : Z.of_nat (length (ramp 8)) = 8) by reflexivity.
  split; [exact H6|]. split; [exact H7|].
  exact (deinterleave_resumes (ramp 8) (ramp 6) 8 6 2 1 0 dirty_planes H1 H2 H3 H4 H5 H6 H7).
Defined.

(** ** What the callback delivers *)

Lemma fifo_runs_untouched b N bufs0 M :
  0 < N -> fifo_wf b -> fifo_cap b <= C.INT_MAX ->
  0 <= M -> M * 4 <= av_fifo_size b ->
  forall i j, ~ (0 <= i < N /\ 0 <= j * N + i < M) ->
    snd (fifo_runs b (mkDi N 0 0, bufs0) (M * 4) deinterleave) i j = bufs0 i j.
Proof.
  intros HN Hwf Hcap HM Hsize i j Hout.
  rewrite fifo_runs_deinterleave by (assumption || lia).
  destruct Hwf as [Hr Hs].
  set (l1 := Z.min (fifo_cap b - fifo_rpos b) (M * 4)).
  assert (Hl1 : 0 <= l1 <= M * 4) by (subst l1; lia).
  assert (Hruns : l1 / 4 + (M * 4 - l1) / 4 <= M)
    by (Z.to_euclidean_division_equations; lia).
  destruct (Z.leb_spec 0 i); [|reflexivity].
  destruct (Z.ltb_spec i N); [|reflexivity].
  destruct (Z.leb_spec 0 (j * N + i)); [|reflexivity].
  destruct (Z.ltb_spec (j * N + i) (l1 / 4 + (M * 4 - l1) / 4)); [|reflexivity].
  exfalso. apply Hout. lia.
Qed.

(** The read path of the callback on a buffer that satisfies the driver's
    invariant. *)
Lemma outputaudio_frames a st b nframes bufs now_us :
  paused st = false -> underrun st = false -> buffer st = Some b ->
  buffer_inv (Some b) ->
  0 <= nframes <= C.INT_MAX -> 0 < num_ports st <= C.INT_MAX ->
  let N := num_ports st in
  let got := Z.min nframes (av_fifo_size b / (N * C.sizeof_float)) in
  exists st' bufs',
    outputaudio a st nframes bufs now_us = Some (st', bufs', 0) /\
    (forall k, 0 <= k < got * N -> bufs' (k mod N) (k / N) = sample_at (fifo_data b) k) /\
    (forall i j, 0 <= i < N -> got <= j < nframes -> bufs' i j = sample_zero) /\
    (forall i j, ~ (0 <= i < N /\ 0 <= j < nframes) -> bufs' i j = bufs i j) /\
    buffer st' = Some (av_fifo_drain b (got * N * C.sizeof_float)) /\
    underrun st' = (got <? nframes) /\
    paused st' = false /\
    num_ports st' = N.
Proof.
  intros Hp Hu Hb (Hwf & Hal & Hcap) Hn HN N got. unfold C.sizeof_float in *.
  assert (Hpre : callback_pre st nframes).
  { unfold callback_pre. rewrite Hb. cbn [buffer_ok]. repeat split; try lia; try apply Hwf. }
  pose proof (outputaudio_reading a st b nframes bufs now_us Hp Hu Hb Hpre) as Hout.
  cbv zeta in Hout. fold N in Hout.
  destruct (read_buffer_spec b bufs nframes N Hwf Hcap Hn ltac:(subst N; lia))
    as (_ & Hbytes & _).
  assert (Hsz : 0 <= av_fifo_size b) by (unfold av_fifo_size; lia).
  assert (Hgot : (if av_fifo_size b <? nframes * 4 * N
                  then av_fifo_size b / (N * 4) else nframes) = got
                 /\ (av_fifo_size b <? nframes * 4 * N) = (got <? nframes)).
  { subst got. destruct (Z.ltb_spec (av_fifo_size b) (nframes * 4 * N)) as [Hs|Hf].
    - assert (av_fifo_size b / (N * 4) < nframes)
        by (apply Z.div_lt_upper_bound; subst N; lia).
      split; [lia|]. symmetry. apply Z.ltb_lt. lia.
    - assert (nframes <= av_fifo_size b / (N * 4))
        by (apply Z.div_le_lower_bound; subst N; lia).
      split; [lia|]. symmetry. apply Z.ltb_ge. lia. }
  destruct Hgot as [Hgot Hshort]. rewrite Hgot in Hout, Hbytes.
  assert (Hg0 : 0 <= got <= nframes).
  { subst got. split; [|lia]. apply Z.min_glb; [lia|]. apply Z.div_pos; subst N; lia. }
  assert (HgN : 0 <= got * N) by (subst N; nia).
  eexists _, _. split; [exact Hout|].
  split; [|split; [|split; [|split; [|split; [|split]]]]].
  - intros k Hk.
    apply (aligned_read_samples b N _ (got * N)); unfold fifo_aligned, C.sizeof_float;
      try assumption; subst N; lia.
  - intros i j Hi Hj.
    rewrite (fifo_runs_untouched b N _ (got * N)); try assumption; try (subst N; lia).
    + rewrite Hshort.
      destruct (Z.ltb_spec got nframes); [|lia].
      rewrite silence_spec by exact Hn. zbool.
    + intros [_ Hx]. subst N. nia.
  - intros i j Hout'.
    rewrite (fifo_runs_untouched b N _ (got * N)); try assumption; try (subst N; lia).
    + destruct (av_fifo_size b <? nframes * 4 * N); [|reflexivity].
      rewrite silence_spec by exact Hn. zbool.
    + intros [Hi Hx]. apply Hout'. split; [exact Hi|]. subst N. nia.
  - match goal with
    | |- buffer (update_estimate a ?s nframes now_us) = _ =>
        destruct (update_estimate_keeps a s nframes now_us) as (-> & _)
    end.
    destruct (av_fifo_size b <? nframes * 4 * N); reflexivity.
  - match goal with
    | |- underrun (update_estimate a ?s nframes now_us) = _ =>
        destruct (update_estimate_keeps a s nframes now_us) as (_ & _ & -> & _)
    end.
    rewrite <- Hshort.
    destruct (av_fifo_size b <? nframes * 4 * N); cbn; [reflexivity|exact Hu].
  - match goal with
    | |- paused (update_estimate a ?s nframes now_us) = _ =>
        destruct (update_estimate_keeps a s nframes now_us) as (_ & -> & _)
    end.
    destruct (av_fifo_size b <? nframes * 4 * N); cbn; exact Hp.
  - match goal with
    | |- num_ports (update_estimate a ?s nframes now_us) = _ =>
        destruct (update_estimate_keeps a s nframes now_us) as (_ & _ & _ & ->)
    end.
    destruct (av_fifo_size b <? nframes * 4 * N); reflexivity.
Qed.

(** X1. A callback on a playing stream (not paused, no underrun flagged,
    buffer present) delivers [got = min(nframes, occupied / frame size)]
    frames: sample [k] of the buffered bytes lands in plane [k mod N] at
    position [k / N]; the positions from [got] to [nframes - 1] are zero;
    nothing is written outside the [N] planes' first [nframes] positions;
    exactly the delivered bytes leave the buffer; and the Underrun flag is
    set exactly when [got < nframes]. *)
Theorem callback_delivers_frames (a : ao) (st : jack_state) (b : AVFifoBuffer)
    (nframes : Z) (bufs : planes) (now_us : Z) :
  paused st = false -> underrun st = false -> buffer st = Some b ->
  buffer_inv (Some b) ->
  0 <= nframes <= C.INT_MAX -> 0 < num_ports st <= C.INT_MAX ->
  let N := num_ports st in
  let got := Z.min nframes (av_fifo_size b / (N * C.sizeof_float)) in
  exists st' bufs',
    outputaudio a st nframes bufs now_us = Some (st', bufs', 0) /\
    (forall k, 0 <= k < got * N -> bufs' (k mod N) (k / N) = sample_at (fifo_data b) k) /\
    (forall i j, 0 <= i < N -> got <= j < nframes -> bufs' i j = sample_zero) /\
    (forall i j, ~ (0 <= i < N /\ 0 <= j < nframes) -> bufs' i j = bufs i j) /\
    buffer st' = Some (av_fifo_drain b (got * N * C.sizeof_float)) /\
    underrun st' = (got <? nframes) /\
    paused st' = false /\
    num_ports st' = N.
Proof.
  intros Hp Hu Hb Hinv Hn HN.
  exact (outputaudio_frames a st b nframes bufs now_us Hp Hu Hb Hinv Hn HN).
Qed.

Lemma callback_delivers_frames_witness :
  let N := num_ports stereo_state in
  buffer_inv (buffer stereo_state) /\
  exists st' bufs',
    outputaudio ao_stereo stereo_state 4 dirty_planes 0 = Some (st', bufs', 0) /\
    (forall k, 0 <= k < 3 * N -> bufs' (k mod N) (k / N) = sample_at (ramp 24) k) /\
    (forall i j, 0 <= i < N -> 3 <= j < 4 -> bufs' i j = sample_zero) /\
    (forall i j, ~ (0 <= i < N /\ 0 <= j < 4) -> bufs' i j = dirty_planes i j) /\
    underrun st' = true.
Proof.
  cbv zeta.
  assert (H1 : paused stereo_state = false) by reflexivity.
  assert (H2 : underrun stereo_state = false) by reflexivity.
  assert (H3 : buffer stereo_state = Some (mkFifo 32 16 (ramp 24))) by reflexivity.
  assert (H4 : buffer_inv (Some (mkFifo 32 16 (ramp 24)))) by by_compute.
  assert (H5 : 0 <= 4 <= C.INT_MAX) by by_compute.
  assert (H6 : 0 < num_ports stereo_state <= C.INT_MAX) by by_compute.
  split; [exact H4|].
  destruct (callback_delivers_frames ao_stereo stereo_state _ 4 dirty_planes 0
              H1 H2 H3 H4 H5 H6)
    as (st' & bufs' & Hout & Hs & Hz & Hk & _ & Hu & _).
  exists st', bufs'. split; [exact Hout|]. split; [exact Hs|].
  split; [exact Hz|]. split; [exact Hk|]. exact Hu.
Defined.

(** X2. Two callbacks in a row on a stream that holds enough data for both
    deliver consecutive frames: the second one starts at the sample where
    the first one stopped, no underrun is flagged, and the occupancy has
    dropped by the bytes of both. *)
Theorem consecutive_callbacks_continue (a : ao) (st : jack_state) (b : AVFifoBuffer)
    (n1 n2 : Z) (bufsA bufsB : planes) (now1 now2 : Z) :
  paused st = false -> underrun st = false -> buffer st = Some b ->
  buffer_inv (Some b) ->
  0 <= n1 -> 0 <= n2 -> 0 < num_ports st <= C.INT_MAX ->
  (n1 + n2) * num_ports st * C.sizeof_float <= av_fifo_size b ->
  let N := num_ports st in
  exists st1 bufs1 st2 bufs2,
    outputaudio a st n1 bufsA now1 = Some (st1, bufs1, 0) /\
    outputaudio a st1 n2 bufsB now2 = Some (st2, bufs2, 0) /\
    (forall k, 0 <= k < n1 * N -> bufs1 (k mod N) (k / N) = sample_at (fifo_data b) k) /\
    (forall k, 0 <= k < n2 * N ->
               bufs2 (k mod N) (k / N) = sample_at (fifo_data b) (n1 * N + k)) /\
    underrun st2 = false /\
    occupancy st2 = av_fifo_size b - (n1 + n2) * N * C.sizeof_float.
Proof.
  intros Hp Hu Hb Hinv H1 H2 HN Hsize N. unfold C.sizeof_float in *.
  pose proof Hinv as (Hwf & Hal & Hcap). pose proof Hwf as [Hr Hs].
  unfold C.INT_MAX in *. fold N in HN, Hsize.
  assert (Hn1 : 0 <= n1 <= C.INT_MAX) by (unfold C.INT_MAX; nia).
  assert (Hn2 : 0 <= n2 <= C.INT_MAX) by (unfold C.INT_MAX; nia).
  assert (HN' : 0 < num_ports st <= C.INT_MAX) by (unfold C.INT_MAX; exact HN).
  destruct (outputaudio_frames a st b n1 bufsA now1 Hp Hu Hb Hinv Hn1 HN')
    as (st1 & bufs1 & Hout1 & Hs1 & _ & _ & Hb1 & Hu1 & Hp1 & HN1).
  cbv zeta in Hs1, Hb1, Hu1. unfold C.sizeof_float in *. fold N in Hs1, Hb1, Hu1, HN1.
  assert (Hq1 : n1 <= av_fifo_size b / (N * 4)) by (apply Z.div_le_lower_bound; nia).
  replace (Z.min n1 (av_fifo_size b / (N * 4))) with n1 in * by lia.
  rewrite Z.ltb_irrefl in Hu1.
  set (b1 := av_fifo_drain b (n1 * N * 4)) in *.
  assert (Hd : 0 <= n1 * N * 4 <= av_fifo_size b) by nia.
  destruct (drain_keeps_invariant b (n1 * N * 4) Hwf Hal Hd) as (Hwf1 & Hal1 & Hcap1).
  { apply Z.mod_mul. unfold C.sizeof_float. lia. }
  fold b1 in Hwf1, Hal1, Hcap1.
  assert (Hinv1 : buffer_inv (Some b1)).
  { cbn [buffer_inv]. rewrite Hcap1. unfold C.INT_MAX. auto. }
  assert (HN1' : 0 < num_ports st1 <= C.INT_MAX) by (rewrite HN1; exact HN').
  destruct (outputaudio_frames a st1 b1 n2 bufsB now2 Hp1 Hu1 Hb1 Hinv1 Hn2 HN1')
    as (st2 & bufs2 & Hout2 & Hs2 & _ & _ & Hb2 & Hu2 & _).
  cbv zeta in Hs2, Hb2, Hu2. unfold C.sizeof_float in *. rewrite HN1 in Hs2, Hb2, Hu2.
  assert (Hsz1 : av_fifo_size b1 = av_fifo_size b - n1 * N * 4)
    by (subst b1; apply av_fifo_drain_size; exact Hd).
  assert (Hq2 : n2 <= av_fifo_size b1 / (N * 4))
    by (apply Z.div_le_lower_bound; nia).
  replace (Z.min n2 (av_fifo_size b1 / (N * 4))) with n2 in * by lia.
  rewrite Z.ltb_irrefl in Hu2.
  exists st1, bufs1, st2, bufs2.
  split; [exact Hout1|]. split; [exact Hout2|]. split; [exact Hs1|].
  split; [|split; [exact Hu2|]].
  - intros k Hk. rewrite (Hs2 k Hk). subst b1. unfold av_fifo_drain. cbn [fifo_data].
    rewrite sample_at_skipn; try lia.
    + f_equal. rewrite Z.div_mul by lia. lia.
    + apply Z.mod_mul. lia.
  - unfold occupancy. rewrite Hb2. rewrite av_fifo_drain_size by nia. lia.
Qed.

Lemma consecutive_callbacks_continue_witness :
  let N := num_ports stereo_state in
  buffer_inv (buffer stereo_state) /\
  (1 + 2) * N * C.sizeof_float <= av_fifo_size (mkFifo 32 16 (ramp 24)) /\
  exists st1 bufs1 st2 bufs2,
    outputaudio ao_stereo stereo_state 1 dirty_planes 0 = Some (st1, bufs1, 0) /\
    outputaudio ao_stereo st1 2 dirty_planes 20000 = Some (st2, bufs2, 0) /\
    (forall k, 0 <= k < 2 * N ->
               bufs2 (k mod N) (k / N) = sample_at (ramp 24) (1 * N + k)) /\
    underrun st2 = false /\
    occupancy st2 = 0.
Proof.
  cbv zeta.
  assert (H1 : paused stereo_state = false) by reflexivity.
  assert (H2 : underrun stereo_state = false) by reflexivity.
  assert (H3 : buffer stereo_state = Some (mkFifo 32 16 (ramp 24))) by reflexivity.
  assert (H4 : buffer_inv (Some (mkFifo 32 16 (ramp 24)))) by by_compute.
  assert (H5 : 0 <= 1) by lia.
  assert (H6 : 0 <= 2) by lia.
  assert (H7 : 0 < num_ports stereo_state <= C.INT_MAX) by by_compute.
  assert (H8 : (1 + 2) * num_ports stereo_state * C.sizeof_float
               <= av_fifo_size (mkFifo 32 16 (ramp 24))) by by_compute.
  split; [exact H4|]. split; [exact H8|].
  destruct (consecutive_callbacks_continue ao_stereo stereo_state _ 1 2
              dirty_planes dirty_planes 0 20000 H1 H2 H3 H4 H5 H6 H7 H8)
    as (st1 & bufs1 & st2 & bufs2 & Ho1 & Ho2 & _ & Hs2 & Hu2 & Hocc).
  exists st1, bufs1, st2, bufs2.
  split; [exact Ho1|]. split; [exact Ho2|]. split; [exact Hs2|].
  split; [exact Hu2|]. exact Hocc.
Defined.

(** ** [play] and [get_space] *)

(** [play] on an open stream, when the rounding has a divisor. *)
Lemma play_open a st b data len flags :
  buffer st = Some b ->
  Z.land flags AOPLAY_FINAL_CHUNK <> 0 \/ 0 < outburst a ->
  let len' := if Z.land flags AOPLAY_FINAL_CHUNK =? 0
              then C.int (len - Z.rem len (outburst a)) else len in
  let n := if av_fifo_space b <? len' then av_fifo_space b else len' in
  play a st data len flags =
  Some (set_buffer (set_underrun st false)
          (Some (mkFifo (fifo_cap b) (fifo_rpos b)
                        (fifo_data b ++ firstn (Z.to_nat n) data))), n).
Proof.
  intros Hb Hdiv len' n. subst n len'. unfold play, write_buffer, av_fifo_generic_write.
  destruct (Z.eqb_spec (Z.land flags AOPLAY_FINAL_CHUNK) 0) as [E|E].
  - destruct Hdiv as [Hf|Ho]; [contradiction|].
    destruct (Z.eqb_spec (outburst a) 0); [lia|].
    cbn [bind set_underrun buffer]. rewrite Hb. reflexivity.
  - cbn [bind set_underrun buffer]. rewrite Hb. reflexivity.
Qed.

Lemma rounded_len len o :
  0 <= len <= C.INT_MAX -> 0 < o ->
  C.int (len - Z.rem len o) = len - len mod o /\
  0 <= len - len mod o <= len /\
  (len - len mod o) mod o = 0.
Proof.
  unfold C.INT_MAX. intros Hlen Ho.
  rewrite Z.rem_mod_nonneg by lia.
  pose proof (Z.mod_pos_bound len o Ho) as Hm.
  assert (Hle : len mod o <= len) by (apply Z.mod_le; lia).
  split; [apply int_small; lia|]. split; [lia|].
  rewrite (Z.mod_eq len o) by lia.
  replace (len - (len - o * (len / o))) with (len / o * o) by lia.
  apply Z.mod_mul. lia.
Qed.

(** Without the final-chunk flag a zero outburst is a division by zero,
    before the Underrun flag is written; with the flag nothing is
    divided. *)
Example play_zero_outburst_traps :
  play (mkAo 48000 384000 0 0) starved_state (ramp 8) 8 0 = None /\
  exists st', play (mkAo 48000 384000 0 0) starved_state (ramp 8) 8 AOPLAY_FINAL_CHUNK
              = Some (st', 8) /\ underrun st' = false.
Proof. split; [reflexivity|]. eexists. split; reflexivity. Qed.

(** X5. A [play] without the final-chunk flag first rounds [len] down to a
    whole number of outbursts and then clamps it to the free space: it
    accepts [min(len - len mod outburst, space)] leading bytes of the data
    and clears the Underrun flag.  The accepted count is a whole number of
    outbursts unless the buffer was filled up; a call with less than one
    outburst accepts nothing and leaves the buffer as it was. *)
Theorem play_rounds_to_outburst (a : ao) (st : jack_state) (b : AVFifoBuffer)
    (data : list byte) (len flags : Z) :
  buffer st = Some b -> fifo_wf b ->
  Z.land flags AOPLAY_FINAL_CHUNK = 0 ->
  0 < outburst a -> 0 <= len <= C.INT_MAX -> len <= Z.of_nat (length data) ->
  exists st' b' n,
    play a st data len flags = Some (st', n) /\
    buffer st' = Some b' /\
    n = Z.min (len - len mod outburst a) (av_fifo_space b) /\
    fifo_data b' = fifo_data b ++ firstn (Z.to_nat n) data /\
    av_fifo_size b' = av_fifo_size b + n /\
    underrun st' = false /\
    (n mod outburst a = 0 \/ n = av_fifo_space b) /\
    (len < outburst a -> n = 0 /\ b' = b).
Proof.
  intros Hb [Hr Hs] Hflag Ho Hlen Hdata.
  pose proof (play_open a st b data len flags Hb (or_intror Ho)) as Hplay.
  cbv zeta in Hplay.
  rewrite Hflag in Hplay. cbn [Z.eqb] in Hplay.
  destruct (rounded_len len (outburst a) Hlen Ho) as (Hint & Hround & Hmul).
  rewrite Hint in Hplay.
  set (r := len - len mod outburst a) in *.
  assert (Hn : (if av_fifo_space b <? r then av_fifo_space b else r)
               = Z.min r (av_fifo_space b))
    by (destruct (Z.ltb_spec (av_fifo_space b) r); lia).
  rewrite Hn in Hplay. set (n := Z.min r (av_fifo_space b)) in *.
  assert (Hsp : 0 <= av_fifo_space b) by (unfold av_fifo_space; lia).
  eexists _, _, n. split; [exact Hplay|]. split; [reflexivity|].
  split; [reflexivity|]. split; [reflexivity|].
  split; [|split; [reflexivity|split]].
  - unfold av_fifo_size. cbn [fifo_data]. rewrite length_app, length_firstn. lia.
  - destruct (Z.min_spec r (av_fifo_space b)) as [[_ Hm]|[_ Hm]];
      fold n in Hm; rewrite Hm; auto.
  - intros Hsmall.
    assert (Hr0 : r = 0) by (subst r; rewrite Z.mod_small by lia; lia).
    assert (Hn0 : n = 0) by lia.
    split; [exact Hn0|]. rewrite Hn0. cbn [Z.to_nat firstn]. rewrite app_nil_r.
    destruct b; reflexivity.
Qed.

Lemma play_rounds_to_outburst_witness :
  let a := mkAo 48000 384000 8 64 in
  let b := mkFifo 16 0 (ramp 8) in
  fifo_wf b /\ Z.land 0 AOPLAY_FINAL_CHUNK = 0 /\
  exists st' b' n,
    play a (small_state true false true (ramp 8)) (ramp 21) 21 0 = Some (st', n) /\
    buffer st' = Some b' /\
    n = Z.min (21 - 21 mod 8) (av_fifo_space (mkFifo 16 0 (ramp 8))) /\
    underrun st' = false.
Proof.
  cbv zeta.
  assert (H1 : buffer (small_state true false true (ramp 8)) = Some (mkFifo 16 0 (ramp 8)))
    by reflexivity.
  assert (H2 : fifo_wf (mkFifo 16 0 (ramp 8))) by by_compute.
  assert (H3 : Z.land 0 AOPLAY_FINAL_CHUNK = 0) by reflexivity.
  assert (H4 : 0 < outburst (mkAo 48000 384000 8 64)) by reflexivity.
  assert (H5 : 0 <= 21 <= C.INT_MAX) by by_compute.
  assert (H6 : 21 <= Z.of_nat (length (ramp 21))) by by_compute.
  split; [exact H2|]. split; [exact H3|].
  destruct (play_rounds_to_outburst (mkAo 48000 384000 8 64)
              (small_state true false true (ramp 8)) _ (ramp 21) 21 0
              H1 H2 H3 H4 H5 H6)
    as (st' & b' & n & Hplay & Hb' & Hn & _ & _ & Hu & _).
  exists st', b', n. split; [exact Hplay|]. split; [exact Hb'|].
  split; [exact Hn|]. exact Hu.
Defined.

(** X6. Every [play] on an open stream accepts between 0 and [len] bytes,
    and [get_space] afterwards is [get_space] before minus the accepted
    count, never negative.  A play of at most [get_space()] bytes that is
    the final chunk, or a whole number of outbursts, is accepted in
    full. *)
Theorem play_space_accounting (a : ao) (st : jack_state) (b : AVFifoBuffer)
    (data : list byte) (len flags : Z) :
  buffer st = Some b -> fifo_wf b ->
  0 < outburst a -> 0 <= len <= C.INT_MAX -> len <= Z.of_nat (length data) ->
  exists st' n,
    play a st data len flags = Some (st', n) /\
    0 <= n <= len /\
    get_space st = Some (av_fifo_space b) /\
    get_space st' = Some (av_fifo_space b - n) /\
    0 <= av_fifo_space b - n /\
    occupancy st' = occupancy st + n /\
    (len <= av_fifo_space b ->
     Z.land flags AOPLAY_FINAL_CHUNK <> 0 \/ len mod outburst a = 0 ->
     n = len).
Proof.
  intros Hb [Hr Hs] Ho Hlen Hdata.
  pose proof (play_open a st b data len flags Hb (or_intror Ho)) as Hplay.
  cbv zeta in Hplay.
  destruct (rounded_len len (outburst a) Hlen Ho) as (Hint & Hround & Hmul).
  rewrite Hint in Hplay.
  set (len' := if Z.land flags AOPLAY_FINAL_CHUNK =? 0
               then len - len mod outburst a else len) in *.
  assert (Hlen' : 0 <= len' <= len) by (subst len'; destruct (_ =? 0); lia).
  set (n := if av_fifo_space b <? len' then av_fifo_space b else len') in *.
  assert (Hsp : 0 <= av_fifo_space b) by (unfold av_fifo_space; lia).
  assert (Hn : 0 <= n <= len /\ n <= av_fifo_space b)
    by (subst n; destruct (Z.ltb_spec (av_fifo_space b) len'); lia).
  exists (set_buffer (set_underrun st false)
            (Some (mkFifo (fifo_cap b) (fifo_rpos b)
                          (fifo_data b ++ firstn (Z.to_nat n) data)))), n.
  split; [exact Hplay|]. split; [lia|].
  assert (Hsize : av_fifo_size (mkFifo (fifo_cap b) (fifo_rpos b)
                                   (fifo_data b ++ firstn (Z.to_nat n) data))
                  = av_fifo_size b + n).
  { unfold av_fifo_size. cbn [fifo_data]. rewrite length_app, length_firstn. lia. }
  split; [unfold get_space; rewrite Hb; reflexivity|].
  split; [|split; [lia|split]].
  - unfold get_space. cbn [set_buffer buffer bind]. f_equal.
    unfold av_fifo_space at 1. rewrite Hsize. cbn [fifo_cap]. unfold av_fifo_space. lia.
  - unfold occupancy. cbn [set_buffer buffer]. rewrite Hb. exact Hsize.
  - intros Hfit Hwhole.
    assert (Hl : len' = len).
    { subst len'. destruct (Z.eqb_spec (Z.land flags AOPLAY_FINAL_CHUNK) 0) as [E|E];
        [|reflexivity].
      destruct Hwhole as [Hf|Hm]; [contradiction|]. lia. }
    subst n. rewrite Hl. destruct (Z.ltb_spec (av_fifo_space b) len); lia.
Qed.

Lemma play_space_accounting_witness :
  let a := mkAo 48000 384000 8 64 in
  let st := small_state true false true (ramp 8) in
  fifo_wf (mkFifo 16 0 (ramp 8)) /\
  exists st' n,
    play a st (ramp 21) 21 AOPLAY_FINAL_CHUNK = Some (st', n) /\
    0 <= n <= 21 /\
    get_space st = Some 8 /\
    get_space st' = Some (8 - n).
Proof.
  cbv zeta.
  assert (H1 : buffer (small_state true false true (ramp 8)) = Some (mkFifo 16 0 (ramp 8)))
    by reflexivity.
  assert (H2 : fifo_wf (mkFifo 16 0 (ramp 8))) by by_compute.
  assert (H4 : 0 < outburst (mkAo 48000 384000 8 64)) by reflexivity.
  assert (H5 : 0 <= 21 <= C.INT_MAX) by by_compute.
  assert (H6 : 21 <= Z.of_nat (length (ramp 21))) by by_compute.
  split; [exact H2|].
  destruct (play_space_accounting (mkAo 48000 384000 8 64)
              (small_state true false true (ramp 8)) _ (ramp 21) 21 AOPLAY_FINAL_CHUNK
              H1 H2 H4 H5 H6)
    as (st' & n & Hplay & Hn & Hsp & Hsp' & _).
  exists st', n. split; [exact Hplay|]. split; [exact Hn|].
  split; [exact Hsp|]. exact Hsp'.
Defined.

(** ** Pause, resume and the buffer *)

Lemma run_app a cs1 :
  forall cs2 st, run a st (cs1 ++ cs2) = st' <- run a st cs1 ;; run a st' cs2.
Proof.
  induction cs1 as [|c cs1 IH]; intros cs2 st.
  - reflexivity.
  - cbn [app run]. destruct (step a st c) as [st1|]; cbn [bind]; [apply IH|reflexivity].
Qed.

Lemma run_callbacks_paused a cs :
  forall st,
    paused st = true -> forallb is_callback cs = true ->
    exists st', run a st cs = Some st' /\ buffer st' = buffer st /\
                underrun st' = underrun st /\ paused st' = true.
Proof.
  induction cs as [|c cs IH]; intros st Hp Hcs.
  - exists st. cbn. auto.
  - cbn [forallb] in Hcs. apply andb_true_iff in Hcs. destruct Hcs as [Hc Hcs].
    destruct c; try discriminate. cbn [run step].
    rewrite outputaudio_gated by (rewrite Hp; reflexivity). cbn [bind].
    destruct (update_estimate_keeps a st nframes now_us) as (Hb1 & Hp1 & Hu1 & _).
    destruct (IH (update_estimate a st nframes now_us)) as (st' & Hrun & Hb' & Hu' & Hp');
      [rewrite Hp1; exact Hp | exact Hcs |].
    exists st'. split; [exact Hrun|]. rewrite Hb', Hu', Hb1, Hu1. auto.
Qed.

(** X7. Pause keeps the buffers: after [audio_pause], any number of
    callback invocations with [int] frame counts (0 to [INT_MAX]) and then
    [audio_resume], the stream is unpaused and its buffer, cursor and
    content, and its Underrun flag are what they were before the pause: a
    paused callback never reads the buffer. *)
Theorem pause_holds_buffer (a : ao) (st : jack_state) (cs : list call) :
  forallb is_callback cs = true ->
  Forall call_ok cs ->
  exists st',
    run a st (Call_pause :: cs ++ [Call_resume]) = Some st' /\
    buffer st' = buffer st /\
    occupancy st' = occupancy st /\
    underrun st' = underrun st /\
    paused st' = false.
Proof.
  intros Hcs _. cbn [run step bind].
  destruct (run_callbacks_paused a cs (audio_pause st) eq_refl Hcs)
    as (st1 & Hrun & Hb & Hu & _).
  exists (audio_resume st1). rewrite run_app, Hrun. cbn [bind run step].
  split; [reflexivity|].
  assert (Hbuf : buffer (audio_resume st1) = buffer st) by (cbn; exact Hb).
  split; [exact Hbuf|]. split; [unfold occupancy; rewrite Hbuf; reflexivity|].
  split; [cbn; exact Hu|reflexivity].
Qed.

Lemma pause_holds_buffer_witness :
  let cs := [Call_outputaudio 4 dirty_planes 5; Call_outputaudio 1000000 dirty_planes 9] in
  forallb is_callback cs = true /\
  Forall call_ok cs /\
  exists st',
    run ao_stereo stereo_state (Call_pause :: cs ++ [Call_resume]) = Some st' /\
    buffer st' = buffer stereo_state /\
    paused st' = false.
Proof.
  cbv zeta.
  assert (H : forallb is_callback
                [Call_outputaudio 4 dirty_planes 5; Call_outputaudio 1000000 dirty_planes 9]
              = true) by reflexivity.
  assert (H' : Forall call_ok
                 [Call_outputaudio 4 dirty_planes 5; Call_outputaudio 1000000 dirty_planes 9])
    by (repeat constructor; unfold C.INT_MAX; lia).
  split; [exact H|]. split; [exact H'|].
  destruct (pause_holds_buffer ao_stereo stereo_state _ H H')
    as (st' & Hrun & Hb & _ & _ & Hp).
  exists st'. split; [exact Hrun|]. split; [exact Hb|exact Hp].
Defined.

(** ** From [play] to the output *)

Lemma interleave_of_samples bufs N F l :
  0 < N -> 0 <= F ->
  Z.of_nat (length l) = F * N * 4 ->
  (forall k, 0 <= k < F * N -> bufs (k mod N) (k / N) = sample_at l k) ->
  interleave bufs N F = l.
Proof.
  intros HN HF Hlen Hs. unfold interleave. rewrite flat_map_concat_map.
  rewrite (map_ext_in _ (fun k => sample_bytes (sample_at l (Z.of_nat k)))).
  - rewrite <- flat_map_concat_map. rewrite samples_of_bytes by lia.
    apply firstn_all2. lia.
  - intros k Hin. apply in_seq in Hin. f_equal. apply Hs. lia.
Qed.

Lemma play_accepts_all a st b data len flags :
  buffer st = Some b -> fifo_wf b ->
  0 <= len <= C.INT_MAX -> len = Z.of_nat (length data) -> len <= av_fifo_space b ->
  Z.land flags AOPLAY_FINAL_CHUNK <> 0 \/ (0 < outburst a /\ len mod outburst a = 0) ->
  play a st data len flags =
  Some (set_buffer (set_underrun st false)
          (Some (mkFifo (fifo_cap b) (fifo_rpos b) (fifo_data b ++ data))), len).
Proof.
  intros Hb Hwf Hlen Hdata Hfit Hwhole.
  assert (Hdiv : Z.land flags AOPLAY_FINAL_CHUNK <> 0 \/ 0 < outburst a)
    by (destruct Hwhole as [Hf|[Ho _]]; auto).
  pose proof (play_open a st b data len flags Hb Hdiv) as Hplay. cbv zeta in Hplay.
  assert (Hl : (if Z.land flags AOPLAY_FINAL_CHUNK =? 0
                then C.int (len - Z.rem len (outburst a)) else len) = len).
  { destruct (Z.eqb_spec (Z.land flags AOPLAY_FINAL_CHUNK) 0) as [E|E]; [|reflexivity].
    destruct Hwhole as [Hf|[Ho Hm]]; [contradiction|].
    destruct (rounded_len len (outburst a) Hlen Ho) as (-> & _). lia. }
  rewrite Hl in Hplay.
  destruct (Z.ltb_spec (av_fifo_space b) len); [lia|].
  rewrite Hplay. rewrite firstn_all2 by lia. reflexivity.
Qed.

(** A play into an empty buffer followed by a callback for the frames
    played. *)
Lemma play_then_callback a st b data len flags F bufs now_us :
  buffer st = Some b -> buffer_inv (Some b) -> fifo_data b = [] ->
  paused st = false ->
  0 < num_ports st <= C.INT_MAX -> 0 <= F ->
  len = F * num_ports st * C.sizeof_float ->
  len = Z.of_nat (length data) -> len <= fifo_cap b ->
  Z.land flags AOPLAY_FINAL_CHUNK <> 0 \/ (0 < outburst a /\ len mod outburst a = 0) ->
  exists st1 st2 bufs',
    play a st data len flags = Some (st1, len) /\
    outputaudio a st1 F bufs now_us = Some (st2, bufs', 0) /\
    interleave bufs' (num_ports st) F = data /\
    underrun st2 = false /\
    occupancy st2 = 0.
Proof.
  intros Hb Hinv Hempty Hp HN HF Hlen Hdata Hcap Hwhole.
  pose proof Hinv as (Hwf & Hal & Hmax). unfold C.sizeof_float, C.INT_MAX in *.
  set (N := num_ports st) in *.
  assert (Hsp : av_fifo_space b = fifo_cap b)
    by (unfold av_fifo_space, av_fifo_size; rewrite Hempty; cbn; lia).
  assert (Hlen0 : 0 <= len <= C.INT_MAX) by (unfold C.INT_MAX; nia).
  rewrite (play_accepts_all a st b data len flags Hb Hwf Hlen0 Hdata ltac:(lia) Hwhole).
  rewrite Hempty. cbn [app].
  set (b1 := mkFifo (fifo_cap b) (fifo_rpos b) data).
  set (st1 := set_buffer (set_underrun st false) (Some b1)).
  assert (Hsz1 : av_fifo_size b1 = F * N * 4) by (unfold av_fifo_size; cbn; lia).
  assert (Hinv1 : buffer_inv (Some b1)).
  { cbn [buffer_inv]. split; [|split; [exact Hal|exact Hmax]].
    destruct Hwf as [Hr _]. split; [exact Hr|]. rewrite Hsz1. cbn [fifo_cap b1]. lia. }
  assert (HF' : 0 <= F <= C.INT_MAX) by (unfold C.INT_MAX; nia).
  destruct (outputaudio_frames a st1 b1 F bufs now_us Hp eq_refl eq_refl Hinv1 HF'
              ltac:(unfold C.INT_MAX; exact HN))
    as (st2 & bufs' & Hout & Hs & _ & _ & Hb2 & Hu2 & _).
  cbv zeta in Hs, Hb2, Hu2. unfold C.sizeof_float in *.
  change (num_ports st1) with N in *.
  assert (Hq : av_fifo_size b1 / (N * 4) = F).
  { rewrite Hsz1. replace (F * N * 4) with (F * (N * 4)) by lia. apply Z.div_mul. lia. }
  rewrite Hq in Hs, Hb2, Hu2. rewrite Z.min_id in Hs, Hb2, Hu2.
  rewrite Z.ltb_irrefl in Hu2.
  exists st1, st2, bufs'. split; [reflexivity|]. split; [exact Hout|].
  split; [|split; [exact Hu2|]].
  - apply interleave_of_samples; try lia. exact Hs.
  - unfold occupancy. rewrite Hb2. rewrite av_fifo_drain_size by lia. lia.
Qed.

(** X8. What is played into an empty stream is what the next callback
    hears.  On an unpaused stream with an empty buffer, whatever the
    Underrun flag, a [play] of [F] whole frames that fit (the final chunk
    or a whole number of outbursts) is accepted in full, and a callback
    for [F] frames then delivers exactly the played bytes, frame by frame,
    leaves the buffer empty and the Underrun flag clear. *)
Theorem played_is_heard (a : ao) (st : jack_state) (b : AVFifoBuffer)
    (data : list byte) (len flags F : Z) (bufs : planes) (now_us : Z) :
  buffer st = Some b -> buffer_inv (Some b) -> fifo_data b = [] ->
  paused st = false ->
  0 < num_ports st <= C.INT_MAX -> 0 <= F ->
  len = F * num_ports st * C.sizeof_float ->
  len = Z.of_nat (length data) -> len <= fifo_cap b ->
  Z.land flags AOPLAY_FINAL_CHUNK <> 0 \/ (0 < outburst a /\ len mod outburst a = 0) ->
  exists st1 st2 bufs',
    play a st data len flags = Some (st1, len) /\
    outputaudio a st1 F bufs now_us = Some (st2, bufs', 0) /\
    interleave bufs' (num_ports st) F = data /\
    underrun st2 = false /\
    occupancy st2 = 0.
Proof.
  intros Hb Hinv Hempty Hp HN HF Hlen Hdata Hcap Hwhole.
  exact (play_then_callback a st b data len flags F bufs now_us
           Hb Hinv Hempty Hp HN HF Hlen Hdata Hcap Hwhole).
Qed.

Lemma played_is_heard_witness :
  let a := mkAo 48000 384000 8 16 in
  underrun starved_state = true /\ buffer_inv (buffer starved_state) /\
  (0 < outburst a /\ 16 mod outburst a = 0) /\
  exists st1 st2 bufs',
    play a starved_state (ramp 16) 16 0 = Some (st1, 16) /\
    outputaudio a st1 2 dirty_planes 0 = Some (st2, bufs', 0) /\
    interleave bufs' 2 2 = ramp 16 /\
    underrun st2 = false /\
    occupancy st2 = 0.
Proof.
  cbv zeta.
  assert (H1 : buffer starved_state = Some wrapped_empty) by reflexivity.
  assert (H2 : buffer_inv (Some wrapped_empty)) by by_compute.
  assert (H3 : fifo_data wrapped_empty = []) by reflexivity.
  assert (H4 : paused starved_state = false) by reflexivity.
  assert (H5 : 0 < num_ports starved_state <= C.INT_MAX) by by_compute.
  assert (H6 : 0 <= 2) by lia.
  assert (H7 : 16 = 2 * num_ports starved_state * C.sizeof_float) by reflexivity.
  assert (H8 : 16 = Z.of_nat (length (ramp 16))) by reflexivity.
  assert (H9 : 16 <= fifo_cap wrapped_empty) by by_compute.
  assert (H10 : 0 < outburst (mkAo 48000 384000 8 16)
                /\ 16 mod outburst (mkAo 48000 384000 8 16) = 0) by by_compute.
  split; [reflexivity|]. split; [exact H2|]. split; [exact H10|].
  exact (played_is_heard (mkAo 48000 384000 8 16) starved_state wrapped_empty (ramp 16)
           16 0 2 dirty_planes 0 H1 H2 H3 H4 H5 H6 H7 H8 H9 (or_intror H10)).
Defined.

(** X9. A reset discards what was queued, whatever the state: on any open
    stream, paused or not, underrun flagged or not, and wherever the read
    cursor stands, after [reset] a [play] of [F] whole frames that fit the
    capacity is accepted in full, and the callback for [F] frames delivers
    exactly the played bytes; nothing queued before the reset reaches the
    output. *)
Theorem reset_discards_queued (a : ao) (st : jack_state) (b : AVFifoBuffer)
    (data : list byte) (len flags F : Z) (bufs : planes) (now_us : Z) :
  buffer st = Some b -> fifo_wf b ->
  fifo_cap b mod C.sizeof_float = 0 -> fifo_cap b <= C.INT_MAX ->
  0 < num_ports st <= C.INT_MAX -> 0 <= F ->
  len = F * num_ports st * C.sizeof_float ->
  len = Z.of_nat (length data) -> len <= fifo_cap b ->
  Z.land flags AOPLAY_FINAL_CHUNK <> 0 \/ (0 < outburst a /\ len mod outburst a = 0) ->
  exists st0 st1 st2 bufs',
    reset st = Some st0 /\
    play a st0 data len flags = Some (st1, len) /\
    outputaudio a st1 F bufs now_us = Some (st2, bufs', 0) /\
    interleave bufs' (num_ports st) F = data /\
    underrun st2 = false /\
    occupancy st2 = 0.
Proof.
  intros Hb Hwf Hal Hmax HN HF Hlen Hdata Hcap Hwhole.
  set (st0 := audio_resume (set_buffer (audio_pause st) (Some (av_fifo_reset b)))).
  assert (Hinv0 : buffer_inv (Some (av_fifo_reset b))).
  { destruct Hwf as [Hr Hs]. unfold buffer_inv, fifo_wf, fifo_aligned, av_fifo_reset,
      av_fifo_size. cbn [fifo_cap fifo_rpos fifo_data length].
    repeat split; try lia; try assumption. }
  destruct (play_then_callback a st0 (av_fifo_reset b) data len flags F bufs now_us)
    as (st1 & st2 & bufs' & Hplay & Hout & Hint & Hu & Hocc); try assumption;
    try reflexivity.
  exists st0, st1, st2, bufs'. split; [apply reset_open; exact Hb|].
  split; [exact Hplay|]. split; [exact Hout|]. split; [exact Hint|].
  split; [exact Hu|exact Hocc].
Qed.

Lemma reset_discards_queued_witness :
  let a := mkAo 48000 384000 8 16 in
  let st := mkJack 2 F.fzero true true true F.fzero F.fzero (Some (mkFifo 32 16 (ramp 24))) in
  fifo_wf (mkFifo 32 16 (ramp 24)) /\
  16 = Z.of_nat (length (ramp 16)) /\
  exists st0 st1 st2 bufs',
    reset st = Some st0 /\
    play a st0 (ramp 16) 16 AOPLAY_FINAL_CHUNK = Some (st1, 16) /\
    outputaudio a st1 2 dirty_planes 0 = Some (st2, bufs', 0) /\
    interleave bufs' 2 2 = ramp 16 /\
    underrun st2 = false /\
    occupancy st2 = 0.
Proof.
  cbv zeta.
  set (st := mkJack 2 F.fzero true true true F.fzero F.fzero (Some (mkFifo 32 16 (ramp 24)))).
  assert (H1 : buffer st = Some (mkFifo 32 16 (ramp 24))) by reflexivity.
  assert (H2 : fifo_wf (mkFifo 32 16 (ramp 24))) by by_compute.
  assert (H3 : fifo_cap (mkFifo 32 16 (ramp 24)) mod C.sizeof_float = 0) by reflexivity.
  assert (H4 : fifo_cap (mkFifo 32 16 (ramp 24)) <= C.INT_MAX) by by_compute.
  assert (H5 : 0 < num_ports st <= C.INT_MAX) by by_compute.
  assert (H6 : 0 <= 2) by lia.
  assert (H7 : 16 = 2 * num_ports st * C.sizeof_float) by reflexivity.
  assert (H8 : 16 = Z.of_nat (length (ramp 16))) by reflexivity.
  assert (H9 : 16 <= fifo_cap (mkFifo 32 16 (ramp 24))) by by_compute.
  assert (H10 : Z.land AOPLAY_FINAL_CHUNK AOPLAY_FINAL_CHUNK <> 0) by by_compute.
  split; [exact H2|]. split; [exact H8|].
  exact (reset_discards_queued (mkAo 48000 384000 8 16) st _ (ramp 16) 16
           AOPLAY_FINAL_CHUNK 2 dirty_planes 0 H1 H2 H3 H4 H5 H6 H7 H8 H9 (or_introl H10)).
Defined.

(** ** Closing the stream *)





(** ** An open stream stays open and within bounds *)

Lemma call_safe_ok a c : call_safe a c -> call_ok c.
Proof. destruct c; cbn; auto; contradiction. Qed.

Lemma step_open a st b c :
  buffer st = Some b -> buffer_inv (Some b) ->
  0 <= num_ports st <= C.INT_MAX -> call_safe a c ->
  exists st' b',
    step a st c = Some st' /\ buffer st' = Some b' /\ fifo_cap b' = fifo_cap b.
Proof.
  intros Hb (Hwf & Hal & Hcap) HN Hc. destruct c; cbn [step call_safe] in *.
  - destruct (paused st || underrun st || is_null (buffer st)) eqn:Hg.
    + rewrite outputaudio_gated by exact Hg. cbn [bind].
      destruct (update_estimate_keeps a st nframes now_us) as (Hb' & _).
      eexists _, b. split; [reflexivity|]. rewrite Hb'. auto.
    + apply orb_false_iff in Hg. destruct Hg as [Hg _].
      apply orb_false_iff in Hg. destruct Hg as [Hp Hu].
      assert (Hpre : callback_pre st nframes).
      { unfold callback_pre. rewrite Hb. cbn [buffer_ok]. auto. }
      rewrite (outputaudio_reading a st b nframes bufs now_us Hp Hu Hb Hpre).
      cbn [bind].
      destruct (av_fifo_size b <? nframes * 4 * num_ports st);
        match goal with
        | |- context [update_estimate a ?s nframes now_us] =>
            destruct (update_estimate_keeps a s nframes now_us) as (Hb' & _)
        end;
        eexists _, _; (split; [reflexivity|]); rewrite Hb';
        cbn [set_underrun set_buffer buffer]; split; reflexivity.
  - rewrite (play_open a st b data len flags Hb (or_intror (proj2 (proj2 Hc)))).
    cbn [bind].
    eexists _, _. split; [reflexivity|]. cbn [set_buffer buffer]. split; reflexivity.
  - unfold get_delay. rewrite Hb. cbn [bind]. eauto.
  - unfold get_space. rewrite Hb. cbn [bind]. eauto.
  - eexists _, b. split; [reflexivity|]. cbn. auto.
  - eexists _, b. split; [reflexivity|]. cbn. auto.
  - rewrite (reset_open st b Hb). eexists _, _. split; [reflexivity|].
    cbn. split; reflexivity.
  - contradiction.
Qed.

(** X11. An open stream stays open and within bounds.  From a state whose
    buffer satisfies the driver's invariant, every sequence of callbacks
    and producer calls short of [uninit] runs to the end without touching
    a null buffer; the buffer keeps its capacity and its invariant (read
    cursor inside the storage and float-aligned), so the occupancy never
    exceeds the capacity, and the port count is unchanged. *)
Theorem open_stream_stays_in_bounds (a : ao) (cs : list call) :
  forall (st : jack_state) (b : AVFifoBuffer),
    buffer st = Some b -> buffer_inv (Some b) ->
    0 <= num_ports st <= C.INT_MAX ->
    Forall (call_safe a) cs ->
    exists st' b',
      run a st cs = Some st' /\
      buffer st' = Some b' /\
      buffer_inv (Some b') /\
      fifo_cap b' = fifo_cap b /\
      0 <= occupancy st' <= fifo_cap b /\
      num_ports st' = num_ports st.
Proof.
  induction cs as [|c cs IH]; intros st b Hb Hinv HN Hcs.
  - exists st, b. cbn [run]. split; [reflexivity|]. split; [exact Hb|].
    split; [exact Hinv|]. split; [reflexivity|]. split; [|reflexivity].
    unfold occupancy. rewrite Hb. destruct Hinv as ([_ Hs] & _).
    unfold av_fifo_size in *. lia.
  - inversion Hcs as [|? ? Hc Hcs']; subst.
    destruct (step_open a st b c Hb Hinv HN Hc) as (st1 & b1 & Hstep & Hb1 & Hcap1).
    assert (Hinv' : buffer_inv (buffer st)) by (rewrite Hb; exact Hinv).
    destruct (step_keeps_invariant a st c st1 Hinv' HN (call_safe_ok a c Hc) Hstep)
      as [Hinv1 HN1].
    rewrite Hb1 in Hinv1.
    destruct (IH st1 b1 Hb1 Hinv1 ltac:(rewrite HN1; exact HN) Hcs')
      as (st' & b' & Hrun & Hb' & Hinvf & Hcapf & Hocc & HNf).
    exists st', b'. cbn [run]. rewrite Hstep. cbn [bind].
    split; [exact Hrun|]. split; [exact Hb'|]. split; [exact Hinvf|].
    split; [congruence|]. split; [rewrite <- Hcap1; exact Hocc|congruence].
Qed.

Lemma open_stream_stays_in_bounds_witness :
  let a := mkAo 48000 384000 8 64 in
  let cs := [Call_play (ramp 21) 21 0; Call_outputaudio 1 dirty_planes 3; Call_pause;
             Call_get_space; Call_reset; Call_resume; Call_get_delay 7;
             Call_play (ramp 5) 5 AOPLAY_FINAL_CHUNK; Call_outputaudio 4 dirty_planes 9] in
  buffer_inv (buffer stereo_state) /\ Forall (call_safe a) cs /\
  exists st' b',
    run a stereo_state cs = Some st' /\
    buffer st' = Some b' /\
    buffer_inv (Some b') /\
    fifo_cap b' = 32 /\
    0 <= occupancy st' <= 32.
Proof.
  cbv zeta.
  assert (H1 : buffer stereo_state = Some (mkFifo 32 16 (ramp 24))) by reflexivity.
  assert (H2 : buffer_inv (Some (mkFifo 32 16 (ramp 24)))) by by_compute.
  assert (H3 : 0 <= num_ports stereo_state <= C.INT_MAX) by by_compute.
  assert (H4 : Forall (call_safe (mkAo 48000 384000 8 64))
                 [Call_play (ramp 21) 21 0; Call_outputaudio 1 dirty_planes 3; Call_pause;
                  Call_get_space; Call_reset; Call_resume; Call_get_delay 7;
                  Call_play (ramp 5) 5 AOPLAY_FINAL_CHUNK; Call_outputaudio 4 dirty_planes 9]).
  { repeat constructor; by_compute. }
  split; [exact H2|]. split; [exact H4|].
  destruct (open_stream_stays_in_bounds (mkAo 48000 384000 8 64) _ stereo_state _
              H1 H2 H3 H4)
    as (st' & b' & Hrun & Hb & Hinv & Hcap & Hocc & _).
  exists st', b'. split; [exact Hrun|]. split; [exact Hb|].
  split; [exact Hinv|]. split; [exact Hcap|exact Hocc].
Defined.

(** ** [init] *)

(** A channel map without channels makes the sizing divide by zero. *)
Example init_ao_no_channels_traps :
  init_ao 0 48000 = None /\ init_ao 2 48000 = Some ao_stereo.
Proof. split; reflexivity. Qed.

(** X12. The sizes [init] computes for [channels] channels at [rate] Hz:
    the outburst is the largest whole number of frames that fits in
    [CHUNK_SIZE] bytes, the buffer holds [NUM_CHUNKS] outbursts, hence
    whole frames and whole floats, and a fresh buffer of that size
    satisfies the driver's invariant; [bps] is [channels * rate *
    sizeof(float)].  The sizing divides by a positive frame size, so it
    does not trap. *)
Theorem init_sizes_whole_frames (channels rate : Z) :
  0 < channels <= 4096 -> 0 <= rate ->
  channels * rate * C.sizeof_float <= C.INT_MAX ->
  let unitsize := channels * C.sizeof_float in
  exists a,
    init_ao channels rate = Some a /\
    outburst a mod unitsize = 0 /\
    CHUNK_SIZE - unitsize < outburst a <= CHUNK_SIZE /\
    buffersize a = NUM_CHUNKS * outburst a /\
    buffersize a mod unitsize = 0 /\
    bps a = channels * rate * C.sizeof_float /\
    samplerate a = rate /\
    buffer_inv (Some (av_fifo_alloc (buffersize a))).
Proof.
  intros Hc Hr Hbps unitsize.
  destruct (init_buffer_invariant channels rate Hc) as (a & Ha & Hinv).
  cbv zeta in Hinv. exists a. split; [exact Ha|].
  pose proof (init_ao_open channels rate Hc) as Ho.
  match type of Ho with
  | _ = Some ?r => assert (Ea : a = r) by congruence
  end.
  clear Ha Ho. subst a.
  split; [|split; [|split; [|split; [|split; [|split]]]]];
    try exact Hinv; try reflexivity.
  all: subst unitsize; unfold C.sizeof_float, C.INT_MAX, CHUNK_SIZE, NUM_CHUNKS in *;
    cbn [outburst buffersize bps samplerate].
  all: try (rewrite Z.quot_div_nonneg by lia).
  - apply Z.mod_mul. lia.
  - pose proof (Z.mul_div_le (16 * 1024) (channels * 4) ltac:(lia)).
    pose proof (Z.mul_succ_div_gt (16 * 1024) (channels * 4) ltac:(lia)).
    lia.
  - replace (8 * (16 * 1024 / (channels * 4) * (channels * 4)))
      with (8 * (16 * 1024 / (channels * 4)) * (channels * 4)) by lia.
    apply Z.mod_mul. lia.
  - rewrite (int_small (channels * rate)) by nia.
    rewrite size_t_small by nia. apply int_small. lia.
Qed.

Lemma init_sizes_whole_frames_witness :
  0 < 6 <= 4096 /\ 6 * 44100 * C.sizeof_float <= C.INT_MAX /\
  exists a,
    init_ao 6 44100 = Some a /\
    outburst a mod (6 * C.sizeof_float) = 0 /\
    CHUNK_SIZE - 6 * C.sizeof_float < outburst a <= CHUNK_SIZE /\
    buffersize a = NUM_CHUNKS * outburst a.
Proof.
  assert (H1 : 0 < 6 <= 4096) by lia.
  assert (H2 : 0 <= 44100) by lia.
  assert (H3 : 6 * 44100 * C.sizeof_float <= C.INT_MAX) by by_compute.
  split; [exact H1|]. split; [exact H3|].
  destruct (init_sizes_whole_frames 6 44100 H1 H2 H3) as (a & Hi & Ha & Hb & Hc & _).
  exists a. split; [exact Hi|]. split; [exact Ha|]. split; [exact Hb|exact Hc].
Defined.








(** ** A play that supplies too little *)

(** X15. [play] clears the Underrun flag even when it supplies less than
    the next callback needs.  On an unpaused stream with an empty buffer
    and the flag set, after a [play] of [F] whole frames a callback for
    more than [F] frames delivers the [F] played frames, fills the rest of
    the planes with silence, empties the buffer and sets the flag again. *)
Theorem short_play_flags_underrun_again (a : ao) (st : jack_state) (b : AVFifoBuffer)
    (data : list byte) (len flags F nframes : Z) (bufs : planes) (now_us : Z) :
  buffer st = Some b -> buffer_inv (Some b) -> fifo_data b = [] ->
  paused st = false -> underrun st = true ->
  0 < num_ports st <= C.INT_MAX -> 0 <= F < nframes -> nframes <= C.INT_MAX ->
  len = F * num_ports st * C.sizeof_float ->
  len = Z.of_nat (length data) -> len <= fifo_cap b ->
  Z.land flags AOPLAY_FINAL_CHUNK <> 0 \/ (0 < outburst a /\ len mod outburst a = 0) ->
  let N := num_ports st in
  exists st1 st2 bufs',
    play a st data len flags = Some (st1, len) /\
    underrun st1 = false /\
    outputaudio a st1 nframes bufs now_us = Some (st2, bufs', 0) /\
    (forall k, 0 <= k < F * N -> bufs' (k mod N) (k / N) = sample_at data k) /\
    (forall i j, 0 <= i < N -> F <= j < nframes -> bufs' i j = sample_zero) /\
    underrun st2 = true /\
    occupancy st2 = 0.
Proof.
  intros Hb Hinv Hempty Hp Hu HN HF Hn Hlen Hdata Hcap Hwhole N.
  pose proof Hinv as (Hwf & Hal & Hmax). unfold C.sizeof_float, C.INT_MAX in *.
  fold N in HN, Hlen.
  assert (Hsp : av_fifo_space b = fifo_cap b)
    by (unfold av_fifo_space, av_fifo_size; rewrite Hempty; cbn; lia).
  assert (Hlen0 : 0 <= len <= C.INT_MAX) by (unfold C.INT_MAX; nia).
  rewrite (play_accepts_all a st b data len flags Hb Hwf Hlen0 Hdata ltac:(lia) Hwhole).
  rewrite Hempty. cbn [app].
  set (b1 := mkFifo (fifo_cap b) (fifo_rpos b) data).
  set (st1 := set_buffer (set_underrun st false) (Some b1)).
  assert (Hsz1 : av_fifo_size b1 = F * N * 4) by (unfold av_fifo_size; cbn; lia).
  assert (Hinv1 : buffer_inv (Some b1)).
  { cbn [buffer_inv]. split; [|split; [exact Hal|exact Hmax]].
    destruct Hwf as [Hr _]. split; [exact Hr|]. rewrite Hsz1. cbn [fifo_cap b1]. lia. }
  destruct (outputaudio_frames a st1 b1 nframes bufs now_us Hp eq_refl eq_refl Hinv1
              ltac:(unfold C.INT_MAX; lia) ltac:(unfold C.INT_MAX; exact HN))
    as (st2 & bufs' & Hout & Hs & Hz & _ & Hb2 & Hu2 & _).
  cbv zeta in Hs, Hz, Hb2, Hu2. unfold C.sizeof_float in *.
  change (num_ports st1) with N in *.
  assert (Hq : av_fifo_size b1 / (N * 4) = F).
  { rewrite Hsz1. replace (F * N * 4) with (F * (N * 4)) by lia. apply Z.div_mul. lia. }
  rewrite Hq in Hs, Hz, Hb2, Hu2.
  replace (Z.min nframes F) with F in * by lia.
  exists st1, st2, bufs'. split; [reflexivity|]. split; [reflexivity|].
  split; [exact Hout|]. split; [exact Hs|]. split; [exact Hz|]. split.
  - rewrite Hu2. apply Z.ltb_lt. lia.
  - unfold occupancy. rewrite Hb2. rewrite av_fifo_drain_size by lia. lia.
Qed.

Lemma short_play_flags_underrun_again_witness :
  let a := mkAo 48000 384000 8 16 in
  underrun starved_state = true /\ buffer_inv (buffer starved_state) /\
  exists st1 st2 bufs',
    play a starved_state (ramp 8) 8 0 = Some (st1, 8) /\
    underrun st1 = false /\
    outputaudio a st1 4 dirty_planes 0 = Some (st2, bufs', 0) /\
    (forall k, 0 <= k < 1 * 2 -> bufs' (k mod 2) (k / 2) = sample_at (ramp 8) k) /\
    (forall i j, 0 <= i < 2 -> 1 <= j < 4 -> bufs' i j = sample_zero) /\
    underrun st2 = true.
Proof.
  cbv zeta.
  assert (H1 : buffer starved_state = Some wrapped_empty) by reflexivity.
  assert (H2 : buffer_inv (Some wrapped_empty)) by by_compute.
  assert (H3 : fifo_data wrapped_empty = []) by reflexivity.
  assert (H4 : paused starved_state = false) by reflexivity.
  assert (H5 : underrun starved_state = true) by reflexivity.
  assert (H6 : 0 < num_ports starved_state <= C.INT_MAX) by by_compute.
  assert (H7 : 0 <= 1 < 4) by lia.
  assert (H8 : 4 <= C.INT_MAX) by by_compute.
  assert (H9 : 8 = 1 * num_ports starved_state * C.sizeof_float) by reflexivity.
  assert (H10 : 8 = Z.of_nat (length (ramp 8))) by reflexivity.
  assert (H11 : 8 <= fifo_cap wrapped_empty) by by_compute.
  assert (H12 : 0 < outburst (mkAo 48000 384000 8 16)
                /\ 8 mod outburst (mkAo 48000 384000 8 16) = 0) by by_compute.
  split; [exact H5|]. split; [exact H2|].
  destruct (short_play_flags_underrun_again (mkAo 48000 384000 8 16) starved_state
              wrapped_empty (ramp 8) 8 0 1 4 dirty_planes 0
              H1 H2 H3 H4 H5 H6 H7 H8 H9 H10 H11 (or_intror H12))
    as (st1 & st2 & bufs' & Hplay & Hu1 & Hout & Hs & Hz & Hu2 & _).
  exists st1, st2, bufs'. split; [exact Hplay|]. split; [exact Hu1|].
  split; [exact Hout|]. split; [exact Hs|]. split; [exact Hz|exact Hu2].
Defined.
